(** * Car_to_Bicyclist_Succed.py: the per-tick telemetry/decision exchange
      and the ego control law of the AEB car-to-bicyclist scenario.

    Python floats are IEEE-754 binary64 values; they are modelled by
    [spec_float] with precision 53 and maximal exponent 1024, whose
    operations are plain computable definitions.  Sockets are modelled by
    the sequence of results their calls produce, exceptions by an error
    monad threaded through the connection state.  The calls to [print] and
    [time.sleep], the HUD, the spectator camera and the set-up of the
    simulator do not take part in the values computed and are left out;
    the plotter is modelled on its own, beside the loop that feeds it. *)

From Stdlib Require Import ZArith List Bool Lia.
From Stdlib Require Import Floats.SpecFloat.
From Stdlib Require Import Strings.Byte.
Import ListNotations.
Local Open Scope Z_scope.

(** ** Python floats *)

Definition float : Type := spec_float.

Module F64.

Definition prec : Z := 53.
Definition emax : Z := 1024.

Definition add : float -> float -> float := SFadd prec emax.
Definition sub : float -> float -> float := SFsub prec emax.
Definition div : float -> float -> float := SFdiv prec emax.

(** [x < y], [x <= y] and [x > y]; every comparison with a NaN is false. *)
Definition ltb (x y : float) : bool := SFltb x y.
Definition leb (x y : float) : bool := SFleb x y.
Definition gtb (x y : float) : bool := SFltb y x.

Definition valid (x : float) : bool := valid_binary prec emax x.

Definition is_finite (x : float) : bool :=
  match x with
  | S754_zero _ | S754_finite _ _ _ => true
  | S754_infinity _ | S754_nan => false
  end.

Definition of_Z (n : Z) : float := binary_normalize prec emax n 0 false.

(** The float denoted by the decimal literal [n / 10^k]: the quotient of
    two exactly representable integers, rounded once. *)
Definition literal (n : Z) (k : Z) : float := div (of_Z n) (of_Z (10 ^ k)).

Definition pinf : float := S754_infinity false.
Definition zero : float := S754_zero false.
Definition one : float := Eval vm_compute in literal 10 1.
Definition two : float := Eval vm_compute in literal 20 1.
Definition c0_05 : float := Eval vm_compute in literal 5 2.
Definition c0_3 : float := Eval vm_compute in literal 3 1.
Definition c0_4 : float := Eval vm_compute in literal 4 1.
Definition c0_5 : float := Eval vm_compute in literal 5 1.
Definition c0_6 : float := Eval vm_compute in literal 6 1.
Definition c2_0 : float := two.
Definition c2_5 : float := Eval vm_compute in literal 25 1.
Definition c3_0 : float := Eval vm_compute in literal 30 1.
Definition m1_0 : float := Eval vm_compute in literal (-10) 1.

End F64.

(** ** Exceptions and the error monad *)

Inductive exn : Type :=
| SocketTimeout      (* socket.timeout *)
| OSError            (* any other socket failure *)
| StructError        (* struct.error *)
| IndexError
| ValueError
| OverflowError
| RuntimeError       (* simulator failure *)
| KeyboardInterrupt. (* not a subclass of Exception *)

(** [except Exception] catches every exception but [KeyboardInterrupt]. *)
Definition is_Exception (e : exn) : bool :=
  match e with
  | KeyboardInterrupt => false
  | _ => true
  end.

Inductive result (A : Type) : Type :=
| Ok (a : A)
| Raise (e : exn).
Arguments Ok {A} a.
Arguments Raise {A} e.

(** ** struct.pack('d', x) and struct.unpack('d', data) *)

Module Struct.

Definition byte_of_Z (z : Z) : byte :=
  match Byte.of_N (Z.to_N (z mod 256)) with
  | Some b => b
  | None => x00
  end.

Definition Z_of_byte (b : byte) : Z := Z.of_N (Byte.to_N b).

(** Little-endian bytes of an unsigned integer, least significant first. *)
Fixpoint le_bytes (n : nat) (z : Z) : list byte :=
  match n with
  | O => []
  | S n' => byte_of_Z z :: le_bytes n' (z / 256)
  end.

Fixpoint le_value (bs : list byte) : Z :=
  match bs with
  | [] => 0
  | b :: bs' => Z_of_byte b + 256 * le_value bs'
  end.

Definition sign_bit (s : bool) : Z := if s then 2 ^ 63 else 0.

(** The binary64 interchange format: sign, 11 bits of biased exponent,
    52 bits of fraction. *)
Definition bits_of_float (x : float) : Z :=
  match x with
  | S754_zero s => sign_bit s
  | S754_infinity s => sign_bit s + 2047 * 2 ^ 52
  | S754_nan => 2047 * 2 ^ 52 + 2 ^ 51
  | S754_finite s m e =>
      if Z.pos m <? 2 ^ 52
      then sign_bit s + Z.pos m
      else sign_bit s + (e + 1075) * 2 ^ 52 + (Z.pos m - 2 ^ 52)
  end.

Definition float_of_bits (z : Z) : float :=
  let s := Z.odd (z / 2 ^ 63) in
  let ex := (z / 2 ^ 52) mod 2 ^ 11 in
  let fr := z mod 2 ^ 52 in
  if ex =? 0 then
    match fr with
    | Z.pos m => S754_finite s m (-1074)
    | _ => S754_zero s
    end
  else if ex =? 2047 then
    if fr =? 0 then S754_infinity s else S754_nan
  else
    match fr + 2 ^ 52 with
    | Z.pos m => S754_finite s m (ex - 1075)
    | _ => S754_nan
    end.

Definition pack_d (x : float) : list byte := le_bytes 8 (bits_of_float x).

Definition unpack_d (data : list byte) : result float :=
  if Nat.eqb (length data) 8
  then Ok (float_of_bits (le_value data))
  else Raise StructError.

End Struct.

(** ** The connection

    A connection is described by what its calls will produce: the outcome
    of each [sendall], and the chunks of bytes that arrive from the peer
    (or the failure met while waiting for them).  [wire_out] collects the
    bytes written so far. *)

Inductive send_result : Type :=
| SendOk
| SendFail (sent : nat).  (* raises after [sent] bytes of the data went out *)

Inductive recv_result : Type :=
| RecvData (data : list byte)  (* bytes available; none: the peer closed *)
| RecvTimeout
| RecvError.

Record connection : Type := {
  send_script : list send_result;
  recv_script : list recv_result;
  wire_out : list byte
}.

Definition IO (A : Type) : Type := connection -> result A * connection.

Definition ret {A : Type} (a : A) : IO A := fun c => (Ok a, c).

Definition raise {A : Type} (e : exn) : IO A := fun c => (Raise e, c).

Definition bind {A B : Type} (m : IO A) (k : A -> IO B) : IO B :=
  fun c =>
    match m c with
    | (Ok a, c') => k a c'
    | (Raise e, c') => (Raise e, c')
    end.

Definition lift {A : Type} (r : result A) : IO A := fun c => (r, c).

Notation "x <- m ;; k" := (bind m (fun x => k))
  (at level 61, m at next level, right associativity).
Notation "m ;;; k" := (bind m (fun _ => k))
  (at level 61, right associativity).

(** [try: m except Exception: h] *)
Definition try_except_Exception {A : Type} (m : IO A) (h : exn -> IO A) : IO A :=
  fun c =>
    match m c with
    | (Ok a, c') => (Ok a, c')
    | (Raise e, c') => if is_Exception e then h e c' else (Raise e, c')
    end.

(** [try: m except socket.timeout: ...]; [inr tt] tells the handler ran. *)
Definition try_except_timeout {A : Type} (m : IO A) : IO (A + unit) :=
  fun c =>
    match m c with
    | (Ok a, c') => (Ok (inl a), c')
    | (Raise SocketTimeout, c') => (Ok (inr tt), c')
    | (Raise e, c') => (Raise e, c')
    end.

(** [conn.sendall(data)]: all of the data goes out, or the call raises
    with some leading part of it already sent. *)
Definition sendall (data : list byte) : IO unit :=
  fun c =>
    match send_script c with
    | SendFail sent :: rest =>
        (Raise OSError,
         {| send_script := rest; recv_script := recv_script c;
            wire_out := wire_out c ++ firstn sent data |})
    | SendOk :: rest =>
        (Ok tt,
         {| send_script := rest; recv_script := recv_script c;
            wire_out := wire_out c ++ data |})
    | [] =>
        (Ok tt,
         {| send_script := []; recv_script := recv_script c;
            wire_out := wire_out c ++ data |})
    end.

Definition with_recv_script (c : connection) (rs : list recv_result) : connection :=
  {| send_script := send_script c; recv_script := rs; wire_out := wire_out c |}.

(** [conn.recv(bufsize)] on a socket with a timeout: at most [bufsize] of
    the bytes that arrived, the rest staying in the stream; a timeout when
    nothing arrives. *)
Definition recv (bufsize : nat) : IO (list byte) :=
  fun c =>
    match recv_script c with
    | RecvData data :: rest =>
        if Nat.leb (length data) bufsize
        then (Ok data, with_recv_script c rest)
        else (Ok (firstn bufsize data),
              with_recv_script c (RecvData (skipn bufsize data) :: rest))
    | RecvTimeout :: rest => (Raise SocketTimeout, with_recv_script c rest)
    | RecvError :: rest => (Raise OSError, with_recv_script c rest)
    | [] => (Raise SocketTimeout, c)
    end.

(** ** Built-ins *)

(** [round(x)] with one argument: the nearest integer, ties to even;
    [ValueError] on a NaN and [OverflowError] on an infinity. *)
Definition round_half_even (m : Z) (k : Z) : Z :=
  let q := m / 2 ^ k in
  let r := m mod 2 ^ k in
  match 2 * r ?= 2 ^ k with
  | Lt => q
  | Gt => q + 1
  | Eq => if Z.even q then q else q + 1
  end.

Definition py_round (x : float) : result Z :=
  match x with
  | S754_zero _ => Ok 0
  | S754_nan => Raise ValueError
  | S754_infinity _ => Raise OverflowError
  | S754_finite s m e =>
      Ok (cond_Zopp s
            (if 0 <=? e then Z.pos m * 2 ^ e
             else round_half_even (Z.pos m) (- e)))
  end.

(** [bool(n)] on an int *)
Definition py_bool (n : Z) : bool := negb (n =? 0).

(** [max(a, b)]: the first argument unless the second is greater. *)
Definition py_max (a b : float) : float := if F64.gtb b a then b else a.

(** [values[i]] *)
Definition index {A : Type} (values : list A) (i : nat) : result A :=
  match nth_error values i with
  | Some v => Ok v
  | None => Raise IndexError
  end.

(** ** Messages *)

(** The dict passed to [send_data]. *)
Record telemetry : Type := {
  MIO_Distance : float;
  MIO_Velocity : float;
  Ego_Velocity : float
}.

(** The dict returned by [receive_data] and kept in [sim_data]; every dict
    literal of the source that builds one lists these four keys. *)
Record decision : Type := {
  egoCarStop : bool;
  FCW_Activate : bool;
  Deceleration : float;
  AEB_Status : bool
}.

Definition default_decision : decision :=
  {| egoCarStop := false; FCW_Activate := false;
     Deceleration := F64.zero; AEB_Status := false |}.

(** ** calculate_ttc *)

Definition calculate_ttc (distance relative_velocity : float) : float :=
  if F64.leb relative_velocity F64.zero then F64.pinf
  else F64.div distance relative_velocity.

(** ** send_data *)

(** The [for val in values] loop; [float(val)] leaves a float as it is. *)
Fixpoint send_values (values : list float) : IO unit :=
  match values with
  | [] => ret tt
  | val :: values' => sendall (Struct.pack_d val) ;;; send_values values'
  end.

Definition send_data (data : telemetry) : IO unit :=
  try_except_Exception
    (send_values [MIO_Distance data; MIO_Velocity data; Ego_Velocity data])
    (fun e => raise e).

(** ** receive_data *)

(** How the [for] loop is left: it ran to its end, or a [return] inside it
    ended the function. *)
Inductive loop_exit : Type :=
| Fallthrough (values : list float)
| Returned (d : decision).

(** One pass of the body of the inner [try]: [None] is the [continue]. *)
Definition receive_one : IO (option float) :=
  data <- recv 8 ;;
  if Nat.ltb (length data) 8 then ret None
  else v <- lift (Struct.unpack_d data) ;; ret (Some v).

Fixpoint receive_loop (n : nat) (values : list float) : IO loop_exit :=
  match n with
  | O => ret (Fallthrough values)
  | S n' =>
      r <- try_except_timeout receive_one ;;
      match r with
      | inl (Some v) => receive_loop n' (values ++ [v])
      | inl None => receive_loop n' values
      | inr _ => ret (Returned default_decision)
      end
  end.

Definition build_result (values : list float) : result decision :=
  match index values 0 with Raise e => Raise e | Ok v0 =>
  match py_round v0 with Raise e => Raise e | Ok r0 =>
  match index values 1 with Raise e => Raise e | Ok v1 =>
  match py_round v1 with Raise e => Raise e | Ok r1 =>
  match index values 2 with Raise e => Raise e | Ok v2 =>
  match index values 3 with Raise e => Raise e | Ok v3 =>
  match py_round v3 with Raise e => Raise e | Ok r3 =>
    Ok {| egoCarStop := py_bool r0; FCW_Activate := py_bool r1;
          Deceleration := v2; AEB_Status := py_bool r3 |}
  end end end end end end end.

Definition receive_data : IO decision :=
  try_except_Exception
    (r <- receive_loop 4 [] ;;
     match r with
     | Returned d => ret d
     | Fallthrough values => lift (build_result values)
     end)
    (fun _ => ret default_decision).

(** ** Storing a float in 32 bits

    [carla.VehicleControl] keeps its throttle, steer and brake as C
    [float]s: a Python float assigned to one of them is rounded to the
    nearest binary32 value, ties to even, and what is read back is that
    value as a Python float. *)

Module F32.

Definition prec : Z := 24.
Definition emax : Z := 128.

(** From 64 to 32 bits: one rounding. *)
Definition narrow (x : float) : float :=
  match x with
  | S754_finite s m e => binary_round prec emax s m e
  | _ => x
  end.

(** From 32 to 64 bits: the same value, its mantissa brought to the 53
    bits of a normal binary64 number (every finite binary32 value is
    one). *)
Definition widen (x : float) : float :=
  match x with
  | S754_finite s m e =>
      match 53 - Z.pos (digits2_pos m) with
      | Z.pos k => S754_finite s (Pos.iter xO m k) (e - Z.pos k)
      | _ => x
      end
  | _ => x
  end.

(** What a field holds after an assignment.  A [spec_float] that is not a
    valid binary64 number stands for no Python float and is left alone. *)
Definition store (x : float) : float :=
  if F64.valid x then widen (narrow x) else x.

End F32.

(** ** Vehicle controls *)

(** [carla.VehicleControl]; the simulator's client library is not part of
    the program, its constructor defaults are those of its documentation. *)
Record VehicleControl : Type := {
  throttle : float;
  steer : float;
  brake : float;
  hand_brake : bool;
  reverse : bool;
  manual_gear_shift : bool;
  gear : Z
}.

Definition VehicleControl_default : VehicleControl :=
  {| throttle := F64.zero; steer := F64.zero; brake := F64.zero;
     hand_brake := false; reverse := false; manual_gear_shift := false;
     gear := 0 |}.

Definition set_throttle (v : float) (c : VehicleControl) : VehicleControl :=
  {| throttle := F32.store v; steer := steer c; brake := brake c;
     hand_brake := hand_brake c; reverse := reverse c;
     manual_gear_shift := manual_gear_shift c; gear := gear c |}.

Definition set_steer (v : float) (c : VehicleControl) : VehicleControl :=
  {| throttle := throttle c; steer := F32.store v; brake := brake c;
     hand_brake := hand_brake c; reverse := reverse c;
     manual_gear_shift := manual_gear_shift c; gear := gear c |}.

Definition set_brake (v : float) (c : VehicleControl) : VehicleControl :=
  {| throttle := throttle c; steer := steer c; brake := F32.store v;
     hand_brake := hand_brake c; reverse := reverse c;
     manual_gear_shift := manual_gear_shift c; gear := gear c |}.

(** Zero throttle, brake 1, zero steer. *)
Definition full_brake : VehicleControl :=
  set_brake F64.one (set_throttle F64.zero VehicleControl_default).

(** The command the function hands to [cyclist.apply_control]. *)
Definition control_cyclist (sim_time : float) : VehicleControl :=
  if F64.gtb sim_time F64.c2_0
  then set_steer F64.zero (set_throttle F64.c0_4 VehicleControl_default)
  else set_brake F64.one (set_throttle F64.zero VehicleControl_default).

(** The [ego] argument of the source is not used by the function. *)
Definition control_ego (sim_time : float) (sim_data : decision)
    (collision : bool) : VehicleControl :=
  let control := VehicleControl_default in
  if AEB_Status sim_data || egoCarStop sim_data || collision then
    set_brake F64.one (set_throttle F64.zero control)
  else if F64.gtb sim_time F64.c2_5 then
    set_steer F64.zero
      (set_brake (Deceleration sim_data)
         (set_throttle
            (py_max F64.c0_3 (F64.sub F64.c0_5 (Deceleration sim_data)))
            control))
  else
    set_brake F64.one (set_throttle F64.zero control).

(** ** The loop of main *)

(** What the outside hands to one pass of the loop: whether a quit event
    is pending, whether stepping the simulator fails, and the measurements
    read from the two actors. *)
Record world_obs : Type := {
  quit_event : bool;
  world_fault : option exn;
  distance : float;
  ego_speed : float;
  cyclist_speed : float
}.

(** The variables of [main] that live across passes. *)
Record loop_state : Type := {
  sim_time : float;
  collision : bool;
  sim_data : decision;
  conn : option connection
}.

(** What one pass applies to the actors and hands to the display. *)
Record tick_output : Type := {
  cyclist_ctrl : VehicleControl;
  ctrl : VehicleControl;
  ttc : float
}.

Inductive tick_result : Type :=
| Quit                                          (* [return] on a quit event *)
| Abort (e : exn)                               (* leaves the loop through an exception *)
| Continue (st : loop_state) (out : tick_output).

Definition initial_state (conn : option connection) : loop_state :=
  {| sim_time := F64.zero; collision := false;
     sim_data := default_decision; conn := conn |}.

(** The [if conn:] block: a failed exchange keeps [sim_data]. *)
Definition exchange (w : world_obs) (st : loop_state)
    : result (decision * option connection) :=
  match conn st with
  | None => Ok (sim_data st, None)
  | Some c =>
      let body :=
        send_data {| MIO_Distance := distance w;
                     MIO_Velocity := cyclist_speed w;
                     Ego_Velocity := ego_speed w |} ;;;
        receive_data in
      match body c with
      | (Ok d, c') => Ok (d, Some c')
      | (Raise e, c') =>
          if is_Exception e then Ok (sim_data st, Some c') else Raise e
      end
  end.

Definition tick (w : world_obs) (st : loop_state) : tick_result :=
  if quit_event w then Quit else
  match world_fault w with
  | Some e => Abort e
  | None =>
      let sim_time' := F64.add (sim_time st) F64.c0_05 in
      let cyclist_ctrl := control_cyclist sim_time' in
      let relative_velocity := F64.sub (ego_speed w) (cyclist_speed w) in
      let ttc := calculate_ttc (distance w) relative_velocity in
      match exchange w st with
      | Raise e => Abort e
      | Ok (sim_data', conn') =>
          let ctrl := control_ego sim_time' sim_data' (collision st) in
          let collision' :=
            if F64.ltb (distance w) F64.c2_5 && negb (collision st)
            then true else collision st in
          Continue
            {| sim_time := sim_time'; collision := collision';
               sim_data := sim_data'; conn := conn' |}
            {| cyclist_ctrl := cyclist_ctrl; ctrl := ctrl; ttc := ttc |}
      end
  end.

(** The [while True] loop: the passes made on a sequence of observations,
    each with what it put out and the state it left; the loop ends at a
    quit event or an exception. *)
Fixpoint run_loop (ws : list world_obs) (st : loop_state)
    : list (tick_output * loop_state) :=
  match ws with
  | [] => []
  | w :: ws' =>
      match tick w st with
      | Continue st' out => (out, st') :: run_loop ws' st'
      | Quit | Abort _ => []
      end
  end.

(** ** Definitions used to state the properties *)

(** Modelled from the spec: the symmetric test codec of the round-trip
    property, which the program does not contain.  It reads the 24 bytes
    back as three 8-byte floats with [struct.unpack('d', ...)], the
    primitive [receive_data] uses, in the order of the fields. *)
Definition decode_outbound (bs : list byte) : result telemetry :=
  match Struct.unpack_d (firstn 8 bs) with
  | Raise e => Raise e
  | Ok d =>
      match Struct.unpack_d (firstn 8 (skipn 8 bs)) with
      | Raise e => Raise e
      | Ok v =>
          match Struct.unpack_d (skipn 16 bs) with
          | Raise e => Raise e
          | Ok s =>
              Ok {| MIO_Distance := d; MIO_Velocity := v; Ego_Velocity := s |}
          end
      end
  end.

Definition valid_telemetry (data : telemetry) : bool :=
  F64.valid (MIO_Distance data) && F64.valid (MIO_Velocity data)
  && F64.valid (Ego_Velocity data).

(** The 32 bytes of one inbound message. *)
Definition inbound_bytes (v0 v1 v2 v3 : float) : list byte :=
  Struct.pack_d v0 ++ Struct.pack_d v1 ++ Struct.pack_d v2 ++ Struct.pack_d v3.

Definition is_SendOk (r : send_result) : bool :=
  match r with
  | SendOk => true
  | SendFail _ => false
  end.

(** None of the next [n] calls of [sendall] fails. *)
Definition sends_ok (n : nat) (c : connection) : bool :=
  forallb is_SendOk (firstn n (send_script c)).

(** The first of the next [n] calls of [sendall] to fail: its position
    among them, from 0, and the number of bytes it let out. *)
Fixpoint first_failure (n : nat) (script : list send_result)
  : option (nat * nat) :=
  match n, script with
  | S n', SendOk :: rest =>
      match first_failure n' rest with
      | Some (j, sent) => Some (S j, sent)
      | None => None
      end
  | S _, SendFail sent :: _ => Some (O, sent)
  | _, _ => None
  end.

(** A connection whose second [sendall] fails after three bytes. *)
Definition second_send_breaks : connection :=
  {| send_script := [SendOk; SendFail 3]; recv_script := [];
     wire_out := [] |}.

(** One of the next [n] calls of [recv] times out or fails: the bytes that
    arrive are handed out at most eight at a time, and the first call that
    finds a timeout, an error or nothing at all is the failing one. *)
Fixpoint recv_fault (n : nat) (rs : list recv_result) : bool :=
  match n with
  | O => false
  | S n' =>
      match rs with
      | [] | RecvTimeout :: _ | RecvError :: _ => true
      | RecvData data :: rest =>
          if Nat.leb (length data) 8 then recv_fault n' rest
          else recv_fault n' (RecvData (skipn 8 data) :: rest)
      end
  end.

(** One of the next [n] calls of [recv] is a short read: it finds fewer
    than eight bytes. *)
Fixpoint recv_short (n : nat) (rs : list recv_result) : bool :=
  match n with
  | O => false
  | S n' =>
      match rs with
      | [] | RecvTimeout :: _ | RecvError :: _ => false
      | RecvData data :: rest =>
          if Nat.ltb (length data) 8 then true
          else if Nat.leb (length data) 8 then recv_short n' rest
          else recv_short n' (RecvData (skipn 8 data) :: rest)
      end
  end.

(** [n] is an integer nearest to the finite float [x]: the two are equal
    when [x] is an integer, and at most one half apart otherwise (the
    distance is measured in units of the last place of [x]). *)
Definition nearest_integer (x : float) (n : Z) : Prop :=
  match x with
  | S754_zero _ => n = 0
  | S754_finite s m e =>
      if 0 <=? e then n = cond_Zopp s (Z.pos m * 2 ^ e)
      else 2 * Z.abs (n * 2 ^ (- e) - cond_Zopp s (Z.pos m)) <= 2 ^ (- e)
  | S754_infinity _ | S754_nan => False
  end.

(** Zero throttle, full brake, zero steer. *)
Definition is_full_brake (c : VehicleControl) : Prop :=
  throttle c = F64.zero /\ brake c = F64.one /\ steer c = F64.zero.

(** The ranges of the three fields of a command: throttle and brake in
    [0, 1], steer in [-1, 1]. *)
Definition in_range (c : VehicleControl) : bool :=
  F64.leb F64.zero (throttle c) && F64.leb (throttle c) F64.one
  && F64.leb F64.zero (brake c) && F64.leb (brake c) F64.one
  && F64.leb F64.m1_0 (steer c) && F64.leb (steer c) F64.one.

(** A float that is not a positive one of exponent above -53: a NaN, a
    zero, a negative value, or a positive finite value whose exponent
    keeps it under 1. *)
Definition below_one (r : float) : Prop :=
  match r with
  | S754_finite false _ e => e <= -53
  | S754_infinity false => False
  | _ => True
  end.

(** A float whose value lies in [0, 1], by mantissa and exponent: a
    zero, or a positive finite [m * 2^e] with [m <= 2^(-e)]. *)
Definition unit_value (r : float) : Prop :=
  match r with
  | S754_zero _ => True
  | S754_finite false m e => e <= 0 /\ Z.pos m <= 2 ^ (- e)
  | _ => False
  end.

(** ** Sample inputs *)

(** A connection on which the given chunks of bytes arrive. *)
Definition arriving (rs : list recv_result) : connection :=
  {| send_script := []; recv_script := rs; wire_out := [] |}.

(** Every send succeeds, nothing arrives. *)
Definition link_up : connection := arriving [].

Definition sample_telemetry : telemetry :=
  {| MIO_Distance := F64.c2_5; MIO_Velocity := F64.c0_4;
     Ego_Velocity := F64.c3_0 |}.

Definition aeb_decision : decision :=
  {| egoCarStop := false; FCW_Activate := true;
     Deceleration := F64.c0_5; AEB_Status := true |}.

(** 0.1, and the values that 0.1, 0.3 and 0.4 take in 32 bits:
    0.10000000149011612, 0.30000001192092896 and 0.4000000059604645. *)
Definition c0_1 : float := Eval vm_compute in F64.literal 1 1.
Definition single_0_1 : float := S754_finite false 7205759511166976 (-56).
Definition single_0_3 : float := S754_finite false 5404319767592960 (-54).
Definition single_0_4 : float := S754_finite false 7205759511166976 (-54).

Definition slight_deceleration : decision :=
  {| egoCarStop := false; FCW_Activate := false;
     Deceleration := c0_1; AEB_Status := false |}.

Definition floor_deceleration : decision :=
  {| egoCarStop := false; FCW_Activate := false;
     Deceleration := F64.c0_3; AEB_Status := false |}.

Definition mild_deceleration : decision :=
  {| egoCarStop := false; FCW_Activate := false;
     Deceleration := F64.c0_4; AEB_Status := false |}.

Definition hard_deceleration : decision :=
  {| egoCarStop := false; FCW_Activate := false;
     Deceleration := F64.two; AEB_Status := false |}.

Definition far_apart : world_obs :=
  {| quit_event := false; world_fault := None;
     distance := F64.of_Z 40; ego_speed := F64.of_Z 5;
     cyclist_speed := F64.zero |}.

Definition close_by : world_obs :=
  {| quit_event := false; world_fault := None;
     distance := F64.two; ego_speed := F64.of_Z 5;
     cyclist_speed := F64.zero |}.

(** Past the engagement threshold, no link, nothing received yet. *)
Definition cruising : loop_state :=
  {| sim_time := F64.c3_0; collision := false;
     sim_data := default_decision; conn := None |}.

(** The collision flag is set. *)
Definition latched : loop_state :=
  {| sim_time := F64.c3_0; collision := true;
     sim_data := default_decision; conn := Some link_up |}.

(** The AEB was active on the previous pass; now nothing arrives. *)
Definition braking_then_silence : loop_state :=
  {| sim_time := F64.c3_0; collision := false;
     sim_data := aeb_decision;
     conn := Some {| send_script := []; recv_script := [RecvTimeout];
                     wire_out := [] |} |}.

(** The AEB was active on the previous pass; now the link is broken. *)
Definition braking_then_broken : loop_state :=
  {| sim_time := F64.c3_0; collision := false;
     sim_data := aeb_decision;
     conn := Some {| send_script := [SendFail 0]; recv_script := [];
                     wire_out := [] |} |}.

(** Two inbound messages [1.0, 0.0, 0.3, 1.0] of which only the first
    three bytes have arrived when the first read is made. *)
Definition two_messages : list byte :=
  inbound_bytes F64.one F64.zero F64.c0_3 F64.one
  ++ inbound_bytes F64.one F64.zero F64.c0_3 F64.one.

Definition late_arrival : connection :=
  arriving [RecvData (firstn 3 two_messages); RecvData (skipn 3 two_messages)].

(** ** RealTimePlotter *)

(** [collections.deque(maxlen=n).append(x)]: the new item goes to the
    right end and, when the deque is full, the leftmost one is dropped. *)
Definition deque_append {A : Type} (maxlen : nat) (x : A) (q : list A) : list A :=
  skipn (length q + 1 - maxlen) (q ++ [x]).

(** [min(a, b)]: the first argument unless the second is smaller. *)
Definition py_min (a b : float) : float := if F64.ltb b a then b else a.

(** The attributes of the plotter that its methods read and write; the
    figure and its axes belong to the plotting library. *)
Record RealTimePlotter : Type := {
  max_points : nat;
  times : list float;
  distances : list float;
  ttc_values : list float;
  ego_speeds : list float;
  cyclist_speeds : list float;
  plotting_enabled : bool
}.

Definition set_plotting_enabled (b : bool) (p : RealTimePlotter) : RealTimePlotter :=
  {| max_points := max_points p; times := times p; distances := distances p;
     ttc_values := ttc_values p; ego_speeds := ego_speeds p;
     cyclist_speeds := cyclist_speeds p; plotting_enabled := b |}.

(** [__init__]: [backend] is the outcome of selecting the backend, made
    outside the [try]; [figure] is the outcome of building the figure,
    made inside it. *)
Definition RealTimePlotter_init (max_points : nat) (backend figure : result unit)
    : result RealTimePlotter :=
  let self := {| max_points := max_points; times := []; distances := [];
                 ttc_values := []; ego_speeds := []; cyclist_speeds := [];
                 plotting_enabled := false |} in
  match backend with
  | Raise e => Raise e
  | Ok _ =>
      match figure with
      | Ok _ => Ok (set_plotting_enabled true self)
      | Raise e =>
          if is_Exception e then Ok (set_plotting_enabled false self)
          else Raise e
      end
  end.

(** [_update_plots]: [draw] is the outcome of the calls to the plotting
    library. *)
Definition _update_plots (draw : result unit) (self : RealTimePlotter)
    : result RealTimePlotter :=
  match draw with
  | Ok _ => Ok self
  | Raise e =>
      if is_Exception e then Ok (set_plotting_enabled false self) else Raise e
  end.

(** The five [append] calls of [update]; the literal [10] of [min(ttc, 10)]
    is the float 10.0 here. *)
Definition append_sample (time_val distance ttc ego_speed cyclist_speed : float)
    (self : RealTimePlotter) : RealTimePlotter :=
  let n := max_points self in
  {| max_points := n;
     times := deque_append n time_val (times self);
     distances := deque_append n distance (distances self);
     ttc_values := deque_append n (py_min ttc (F64.of_Z 10)) (ttc_values self);
     ego_speeds := deque_append n ego_speed (ego_speeds self);
     cyclist_speeds := deque_append n cyclist_speed (cyclist_speeds self);
     plotting_enabled := plotting_enabled self |}.

(** [update]: the plotter it leaves, and whether it called [_update_plots]. *)
Definition update (draw : result unit)
    (time_val distance ttc ego_speed cyclist_speed : float)
    (self : RealTimePlotter) : result (RealTimePlotter * bool) :=
  if negb (plotting_enabled self) then Ok (self, false)
  else
    let self' := append_sample time_val distance ttc ego_speed cyclist_speed self in
    if Nat.eqb (Nat.modulo (length (times self')) 5) 0 then
      match _update_plots draw self' with
      | Ok self'' => Ok (self'', true)
      | Raise e =>
          if is_Exception e then Ok (set_plotting_enabled false self', true)
          else Raise e
      end
    else Ok (self', false).

(** One sample handed to [update], with the outcome the plotting library
    would give to a redraw made for it. *)
Record sample : Type := {
  s_draw : result unit;
  s_time : float;
  s_distance : float;
  s_ttc : float;
  s_ego_speed : float;
  s_cyclist_speed : float
}.

Definition update_sample (s : sample) (self : RealTimePlotter)
    : result (RealTimePlotter * bool) :=
  update (s_draw s) (s_time s) (s_distance s) (s_ttc s) (s_ego_speed s)
         (s_cyclist_speed s) self.

(** The calls of [update] made over a run, one per sample, until one lets
    an exception through. *)
Fixpoint update_all (ss : list sample) (self : RealTimePlotter)
    : result RealTimePlotter :=
  match ss with
  | [] => Ok self
  | s :: ss' =>
      match update_sample s self with
      | Ok (self', _) => update_all ss' self'
      | Raise e => Raise e
      end
  end.

(** The same calls, for what each of them did: [true] where [update]
    went on to redraw. *)
Fixpoint update_trace (ss : list sample) (self : RealTimePlotter)
    : result (list bool) :=
  match ss with
  | [] => Ok []
  | s :: ss' =>
      match update_sample s self with
      | Ok (self', redrawn) =>
          match update_trace ss' self' with
          | Ok flags => Ok (redrawn :: flags)
          | Raise e => Raise e
          end
      | Raise e => Raise e
      end
  end.

(** ** Further definitions used to state properties *)

(** The bytes waiting in the stream. *)
Fixpoint pending (rs : list recv_result) : nat :=
  match rs with
  | [] => 0
  | RecvData data :: rest => length data + pending rest
  | _ :: rest => pending rest
  end.

(** The observations up to the first quit event or simulator failure. *)
Fixpoint live_prefix (ws : list world_obs) : nat :=
  match ws with
  | [] => 0
  | w :: ws' =>
      if quit_event w then 0%nat
      else match world_fault w with
           | Some _ => 0%nat
           | None => S (live_prefix ws')
           end
  end.

(** The clock after [n] passes: [n] additions of 0.05. *)
Fixpoint sim_time_after (n : nat) (t : float) : float :=
  match n with
  | O => t
  | S n' => F64.add (sim_time_after n' t) F64.c0_05
  end.

(** The last [n] items of a list. *)
Definition lastn {A : Type} (n : nat) (l : list A) : list A :=
  skipn (length l - n) l.

(** The five series have one length, within the capacity. *)
Definition aligned (p : RealTimePlotter) : Prop :=
  length (distances p) = length (times p) /\
  length (ttc_values p) = length (times p) /\
  length (ego_speeds p) = length (times p) /\
  length (cyclist_speeds p) = length (times p) /\
  (length (times p) <= max_points p)%nat.

Definition is_Ok {A : Type} (r : result A) : bool :=
  match r with
  | Ok _ => true
  | Raise _ => false
  end.

(** Every redraw asked for would succeed. *)
Definition draws_ok (ss : list sample) : bool :=
  forallb (fun s => is_Ok (s_draw s)) ss.

Definition sample_at (t : Z) (ttc : float) : sample :=
  {| s_draw := Ok tt; s_time := F64.of_Z t; s_distance := F64.of_Z 40;
     s_ttc := ttc; s_ego_speed := F64.of_Z 5; s_cyclist_speed := F64.zero |}.

(** Ten minutes of simulated time, in passes of 0.05. *)
Definition horizon : nat := 120 * 100.

(** The two commands the cyclist is given, field by field: held with
    zero throttle and brake 1, and riding with the 32-bit value of 0.4,
    0.4000000059604645, as throttle. *)
Definition cyclist_waits : VehicleControl :=
  {| throttle := F64.zero; steer := F64.zero; brake := F64.one;
     hand_brake := false; reverse := false; manual_gear_shift := false;
     gear := 0 |}.

Definition cyclist_rides : VehicleControl :=
  {| throttle := single_0_4; steer := F64.zero; brake := F64.zero;
     hand_brake := false; reverse := false; manual_gear_shift := false;
     gear := 0 |}.

(** The decision with its FCW field replaced. *)
Definition with_FCW (b : bool) (d : decision) : decision :=
  {| egoCarStop := egoCarStop d; FCW_Activate := b;
     Deceleration := Deceleration d; AEB_Status := AEB_Status d |}.

(** Does [P] hold of the clock after each of the next [n] passes? *)
Fixpoint clock_check (P : float -> bool) (n : nat) (t : float) : bool :=
  match n with
  | O => true
  | S n' =>
      let t' := F64.add t F64.c0_05 in
      P t' && clock_check P n' t'
  end.

(** A plotter of capacity 5 whose history is full. *)
Definition full_plotter : RealTimePlotter :=
  let five := [F64.one; F64.one; F64.one; F64.one; F64.one] in
  {| max_points := 5; times := five; distances := five; ttc_values := five;
     ego_speeds := five; cyclist_speeds := five; plotting_enabled := true |}.

(** A new plotter whose figure could not be built. *)
Definition blank_plotter (n : nat) : RealTimePlotter :=
  {| max_points := n; times := []; distances := []; ttc_values := [];
     ego_speeds := []; cyclist_speeds := []; plotting_enabled := false |}.

(** A plotter of capacity 200 that holds four samples, the sample whose
    redraw fails, and the plotter that this sample leaves. *)
Definition four_samples : RealTimePlotter :=
  let four := [F64.one; F64.one; F64.one; F64.one] in
  {| max_points := 200; times := four; distances := four; ttc_values := four;
     ego_speeds := four; cyclist_speeds := four; plotting_enabled := true |}.

Definition failing_draw : sample :=
  {| s_draw := Raise OSError; s_time := F64.two; s_distance := F64.c3_0;
     s_ttc := F64.pinf; s_ego_speed := F64.c2_5; s_cyclist_speed := F64.zero |}.

Definition five_samples_off : RealTimePlotter :=
  let four := [F64.one; F64.one; F64.one; F64.one] in
  {| max_points := 200; times := four ++ [F64.two];
     distances := four ++ [F64.c3_0]; ttc_values := four ++ [F64.of_Z 10];
     ego_speeds := four ++ [F64.c2_5]; cyclist_speeds := four ++ [F64.zero];
     plotting_enabled := false |}.

(** The sample [main] hands to [plotter.update] at the end of a pass. *)
Definition sample_of_pass (draw : result unit) (w : world_obs)
    (st' : loop_state) (out : tick_output) : sample :=
  {| s_draw := draw; s_time := sim_time st'; s_distance := distance w;
     s_ttc := ttc out; s_ego_speed := ego_speed w;
     s_cyclist_speed := cyclist_speed w |}.

(** * Properties *)

(** ** Digits and powers of two *)

Lemma digits2_pos_bounds (m : positive) :
  2 ^ (Z.pos (digits2_pos m) - 1) <= Z.pos m < 2 ^ Z.pos (digits2_pos m).
Proof.
  induction m as [p IH | p IH | ]; cbn [digits2_pos].
  - rewrite Pos2Z.inj_succ.
    replace (Z.succ (Z.pos (digits2_pos p)) - 1)
      with (Z.succ (Z.pos (digits2_pos p) - 1)) by lia.
    rewrite !Z.pow_succ_r by lia. lia.
  - rewrite Pos2Z.inj_succ.
    replace (Z.succ (Z.pos (digits2_pos p)) - 1)
      with (Z.succ (Z.pos (digits2_pos p) - 1)) by lia.
    rewrite !Z.pow_succ_r by lia. lia.
  - cbn. lia.
Qed.

Lemma digits2_pos_le (m : positive) (k : Z) :
  0 <= k -> Z.pos m < 2 ^ k -> Z.pos (digits2_pos m) <= k.
Proof.
  intros Hk Hm.
  destruct (Z.le_gt_cases (Z.pos (digits2_pos m)) k) as [H | H]; [exact H | ].
  exfalso.
  pose proof (digits2_pos_bounds m) as [Hlo _].
  assert (2 ^ k <= 2 ^ (Z.pos (digits2_pos m) - 1))
    by (apply Z.pow_le_mono_r; lia).
  lia.
Qed.

Lemma digits2_pos_ge (m : positive) (k : Z) :
  2 ^ k <= Z.pos m -> k < Z.pos (digits2_pos m).
Proof.
  intros Hm.
  destruct (Z.lt_ge_cases k (Z.pos (digits2_pos m))) as [H | H]; [exact H | ].
  exfalso.
  pose proof (digits2_pos_bounds m) as [_ Hhi].
  assert (2 ^ Z.pos (digits2_pos m) <= 2 ^ k)
    by (apply Z.pow_le_mono_r; lia).
  lia.
Qed.

(** A valid finite float is subnormal with the least exponent, or normal
    with a 53-bit mantissa. *)
Lemma bounded_cases (m : positive) (e : Z) :
  bounded F64.prec F64.emax m e = true ->
  (Z.pos m < 2 ^ 52 /\ e = -1074) \/
  (2 ^ 52 <= Z.pos m < 2 ^ 53 /\ -1074 <= e <= 971).
Proof.
  unfold bounded, canonical_mantissa, fexp, emin, F64.prec, F64.emax.
  rewrite andb_true_iff, Z.eqb_eq, Z.leb_le.
  intros [Hc He].
  pose proof (digits2_pos_bounds m) as [Hlo Hhi].
  destruct (Z.le_gt_cases 53 (Z.pos (digits2_pos m))) as [Hd | Hd].
  - right.
    assert (Z.pos (digits2_pos m) = 53) as Hd53 by lia.
    rewrite Hd53 in Hlo, Hhi. change (53 - 1) with 52 in Hlo. lia.
  - left.
    assert (2 ^ Z.pos (digits2_pos m) <= 2 ^ 52)
      by (apply Z.pow_le_mono_r; lia).
    lia.
Qed.

Lemma bounded_intro (m : positive) (e : Z) :
  (Z.pos m < 2 ^ 52 /\ e = -1074) \/
  (2 ^ 52 <= Z.pos m < 2 ^ 53 /\ -1074 <= e <= 971) ->
  bounded F64.prec F64.emax m e = true.
Proof.
  unfold bounded, canonical_mantissa, fexp, emin, F64.prec, F64.emax.
  rewrite andb_true_iff, Z.eqb_eq, Z.leb_le.
  intros [[Hm He] | [Hm He]].
  - pose proof (digits2_pos_le m 52 ltac:(lia) Hm). lia.
  - pose proof (digits2_pos_le m 53 ltac:(lia) (proj2 Hm)).
    pose proof (digits2_pos_ge m 52 (proj1 Hm)). lia.
Qed.

(** ** The 8-byte encoding *)

Module StructFacts.
Import Struct.

Lemma Z_of_byte_of_Z (z : Z) : Z_of_byte (byte_of_Z z) = z mod 256.
Proof.
  unfold Z_of_byte, byte_of_Z.
  assert (0 <= z mod 256 < 256) as Hr by (apply Z.mod_pos_bound; lia).
  destruct (Byte.of_N (Z.to_N (z mod 256))) as [b | ] eqn:Hb.
  - apply Byte.to_of_N in Hb. rewrite Hb. apply Z2N.id. lia.
  - apply Byte.of_N_None_iff in Hb. lia.
Qed.

Lemma le_bytes_length (n : nat) (z : Z) : length (le_bytes n z) = n.
Proof.
  revert z. induction n as [ | n IH]; intros z; cbn; [ | rewrite IH]; reflexivity.
Qed.

Lemma le_value_le_bytes (n : nat) (z : Z) :
  le_value (le_bytes n z) = z mod 256 ^ Z.of_nat n.
Proof.
  revert z. induction n as [ | n IH]; intros z.
  - cbn. symmetry. apply Z.mod_1_r.
  - cbn [le_bytes le_value]. rewrite Z_of_byte_of_Z, IH.
    rewrite Nat2Z.inj_succ, Z.pow_succ_r by lia.
    rewrite Z.rem_mul_r by lia. reflexivity.
Qed.

Lemma pack_d_length (x : float) : length (pack_d x) = 8%nat.
Proof. apply le_bytes_length. Qed.

(** Reading back the three fields of a 64-bit pattern. *)
Lemma fields_of_bits (s : bool) (ex fr : Z) :
  0 <= ex < 2 ^ 11 -> 0 <= fr < 2 ^ 52 ->
  let z := sign_bit s + ex * 2 ^ 52 + fr in
  Z.odd (z / 2 ^ 63) = s /\ (z / 2 ^ 52) mod 2 ^ 11 = ex /\ z mod 2 ^ 52 = fr.
Proof.
  intros Hex Hfr z.
  set (sb := if s then 1 else 0).
  assert (z = fr + (sb * 2 ^ 11 + ex) * 2 ^ 52) as Hz.
  { unfold z, sign_bit, sb. destruct s.
    - change (2 ^ 63) with (2 ^ 11 * 2 ^ 52). ring.
    - ring. }
  assert (z / 2 ^ 52 = sb * 2 ^ 11 + ex) as Hq.
  { rewrite Hz, Z.div_add by lia. rewrite Z.div_small by lia. lia. }
  repeat split.
  - change (2 ^ 63) with (2 ^ 52 * 2 ^ 11).
    rewrite <- Z.div_div by lia. rewrite Hq.
    rewrite Z.add_comm, Z.div_add by lia.
    rewrite Z.div_small by lia. unfold sb. destruct s; reflexivity.
  - rewrite Hq, Z.add_comm, Z.mod_add by lia. apply Z.mod_small. lia.
  - rewrite Hz, Z.mod_add by lia. apply Z.mod_small. lia.
Qed.

Lemma bits_of_float_range (x : float) :
  F64.valid x = true -> 0 <= bits_of_float x < 2 ^ 64.
Proof.
  destruct x as [s | s | | s m e]; cbn [bits_of_float]; intros Hv.
  - destruct s; cbn; lia.
  - destruct s; cbn; lia.
  - cbn; lia.
  - apply bounded_cases in Hv.
    assert (0 <= sign_bit s <= 2 ^ 63) by (destruct s; cbn; lia).
    change (2 ^ 64) with (2 ^ 63 + 2047 * 2 ^ 52 + 2 ^ 52).
    change (2 ^ 53) with (2 ^ 52 + 2 ^ 52) in Hv.
    destruct (Z.ltb_spec (Z.pos m) (2 ^ 52)); nia.
Qed.

(** Decoding the bits of a valid float gives the float back. *)
Lemma float_of_bits_of_float (x : float) :
  F64.valid x = true -> float_of_bits (bits_of_float x) = x.
Proof.
  destruct x as [s | s | | s m e]; intros Hv.
  - destruct s; reflexivity.
  - destruct s; reflexivity.
  - reflexivity.
  - apply bounded_cases in Hv. cbn [bits_of_float].
    change (2 ^ 53) with (2 ^ 52 + 2 ^ 52) in Hv.
    destruct (Z.ltb_spec (Z.pos m) (2 ^ 52)) as [Hlt | Hge].
    + destruct Hv as [[_ He] | [Hm _]]; [ | lia]. subst e.
      destruct (fields_of_bits s 0 (Z.pos m)) as (Hs & Hex & Hfr);
        [lia | lia | ].
      cbv zeta in Hs, Hex, Hfr.
      rewrite Z.mul_0_l, Z.add_0_r in Hs, Hex, Hfr.
      unfold float_of_bits. rewrite Hs, Hex, Hfr. reflexivity.
    + destruct Hv as [[Hm _] | [Hm He]]; [lia | ].
      destruct (fields_of_bits s (e + 1075) (Z.pos m - 2 ^ 52))
        as (Hs & Hex & Hfr); [lia | lia | ].
      cbv zeta in Hs, Hex, Hfr.
      unfold float_of_bits. rewrite Hs, Hex, Hfr.
      destruct (Z.eqb_spec (e + 1075) 0) as [H0 | _]; [lia | ].
      destruct (Z.eqb_spec (e + 1075) 2047) as [H1 | _]; [lia | ].
      replace (Z.pos m - 2 ^ 52 + 2 ^ 52) with (Z.pos m) by lia.
      f_equal. lia.
Qed.

(** Every bit pattern decodes to a valid float. *)
Lemma float_of_bits_valid (z : Z) : F64.valid (float_of_bits z) = true.
Proof.
  unfold float_of_bits.
  assert (0 <= (z / 2 ^ 52) mod 2 ^ 11 < 2 ^ 11) as Hex
    by (apply Z.mod_pos_bound; lia).
  assert (0 <= z mod 2 ^ 52 < 2 ^ 52) as Hfr
    by (apply Z.mod_pos_bound; lia).
  set (ex := (z / 2 ^ 52) mod 2 ^ 11) in *.
  set (fr := z mod 2 ^ 52) in *.
  change (2 ^ 11) with 2048 in Hex.
  destruct (Z.eqb_spec ex 0) as [H0 | H0].
  - destruct fr as [ | m | m] eqn:Hm; try reflexivity.
    apply bounded_intro. left. lia.
  - destruct (Z.eqb_spec ex 2047) as [H1 | H1].
    + destruct (fr =? 0); reflexivity.
    + destruct (fr + 2 ^ 52) as [ | m | m] eqn:Hm; try reflexivity.
      apply bounded_intro. right.
      change (2 ^ 53) with (2 ^ 52 + 2 ^ 52). lia.
Qed.

Lemma unpack_d_pack_d (x : float) :
  F64.valid x = true -> unpack_d (pack_d x) = Ok x.
Proof.
  intros Hv. unfold unpack_d. rewrite pack_d_length. cbn [Nat.eqb].
  unfold pack_d. rewrite le_value_le_bytes.
  change (256 ^ Z.of_nat 8) with (2 ^ 64).
  rewrite Z.mod_small by (apply bits_of_float_range; exact Hv).
  rewrite float_of_bits_of_float by exact Hv. reflexivity.
Qed.

Lemma unpack_d_valid (data : list byte) (x : float) :
  unpack_d data = Ok x -> F64.valid x = true.
Proof.
  unfold unpack_d. destruct (Nat.eqb (length data) 8); [ | discriminate].
  intros H. injection H as <-. apply float_of_bits_valid.
Qed.

End StructFacts.

(** ** send_data *)

Lemma sendall_ok (data : list byte) (c : connection) :
  sends_ok 1 c = true ->
  sendall data c =
    (Ok tt, {| send_script := tl (send_script c);
               recv_script := recv_script c;
               wire_out := wire_out c ++ data |}).
Proof.
  unfold sends_ok, sendall.
  destruct (send_script c) as [ | [ | n] rest]; cbn; intros H;
    [reflexivity | reflexivity | discriminate].
Qed.

Lemma firstn_exact {A : Type} (n : nat) (a b : list A) :
  length a = n -> firstn n (a ++ b) = a.
Proof.
  intros <-. induction a as [ | x a IH]; cbn.
  - reflexivity.
  - rewrite IH. reflexivity.
Qed.

Lemma skipn_exact {A : Type} (n : nat) (a b : list A) :
  length a = n -> skipn n (a ++ b) = b.
Proof.
  intros <-. induction a as [ | x a IH]; cbn; [reflexivity | exact IH].
Qed.

Lemma decode_outbound_packed (d v s : float) :
  F64.valid d = true -> F64.valid v = true -> F64.valid s = true ->
  decode_outbound (Struct.pack_d d ++ Struct.pack_d v ++ Struct.pack_d s) =
    Ok {| MIO_Distance := d; MIO_Velocity := v; Ego_Velocity := s |}.
Proof.
  intros Hd Hv Hs. unfold decode_outbound.
  pose proof (StructFacts.pack_d_length d) as Ld.
  pose proof (StructFacts.pack_d_length v) as Lv.
  rewrite (firstn_exact 8) by exact Ld.
  rewrite StructFacts.unpack_d_pack_d by exact Hd.
  rewrite (skipn_exact 8) by exact Ld.
  rewrite (firstn_exact 8) by exact Lv.
  rewrite StructFacts.unpack_d_pack_d by exact Hv.
  rewrite app_assoc, (skipn_exact 16)
    by (rewrite length_app, Ld, Lv; reflexivity).
  rewrite StructFacts.unpack_d_pack_d by exact Hs. reflexivity.
Qed.

Lemma send_data_ok (data : telemetry) (c : connection) :
  sends_ok 3 c = true ->
  send_data data c =
    (Ok tt,
     {| send_script := tl (tl (tl (send_script c)));
        recv_script := recv_script c;
        wire_out := wire_out c
                    ++ Struct.pack_d (MIO_Distance data)
                    ++ Struct.pack_d (MIO_Velocity data)
                    ++ Struct.pack_d (Ego_Velocity data) |}).
Proof.
  intros Hok.
  unfold send_data, try_except_Exception, send_values, bind.
  set (d := MIO_Distance data). set (v := MIO_Velocity data).
  set (s := Ego_Velocity data).
  assert (sends_ok 1 c = true /\
          sends_ok 1 {| send_script := tl (send_script c);
                        recv_script := recv_script c;
                        wire_out := wire_out c ++ Struct.pack_d d |} = true /\
          sends_ok 1 {| send_script := tl (tl (send_script c));
                        recv_script := recv_script c;
                        wire_out := (wire_out c ++ Struct.pack_d d)
                                    ++ Struct.pack_d v |} = true)
    as (H1 & H2 & H3).
  { unfold sends_ok in *. cbn [send_script].
    destruct (send_script c) as [ | r1 [ | r2 [ | r3 rest]]];
      cbn in *; rewrite ?andb_true_iff in *; intuition auto. }
  rewrite (sendall_ok _ _ H1), (sendall_ok _ _ H2).
  cbn [send_script recv_script wire_out].
  rewrite (sendall_ok _ _ H3). cbn [send_script recv_script wire_out ret].
  rewrite <- !app_assoc. reflexivity.
Qed.

Lemma sendall_exn (data : list byte) (c c' : connection) (e : exn) :
  sendall data c = (Raise e, c') -> e = OSError.
Proof.
  unfold sendall. destruct (send_script c) as [ | [ | n] rest];
    intros H; try discriminate. injection H as <- _. reflexivity.
Qed.

Lemma send_values_exn (values : list float) (c c' : connection) (e : exn) :
  send_values values c = (Raise e, c') -> e = OSError.
Proof.
  revert c. induction values as [ | val values IH]; intros c.
  - discriminate.
  - cbn [send_values]. unfold bind.
    destruct (sendall (Struct.pack_d val) c) as [[u | e0] c0] eqn:Hs.
    + apply IH.
    + intros H. injection H as <- _. eapply sendall_exn. exact Hs.
Qed.

Lemma send_data_exn (data : telemetry) (c c' : connection) (e : exn) :
  send_data data c = (Raise e, c') -> is_Exception e = true.
Proof.
  unfold send_data, try_except_Exception.
  destruct (send_values _ c) as [[u | e0] c0] eqn:Hs; [discriminate | ].
  apply send_values_exn in Hs. subst e0. cbn. unfold raise.
  intros H. injection H as <- _. reflexivity.
Qed.

(** A failing [sendall] makes [send_data] raise. *)
Lemma send_data_fail (data : telemetry) (c : connection) :
  sends_ok 3 c = false ->
  exists e c', send_data data c = (Raise e, c').
Proof.
  unfold sends_ok, send_data, try_except_Exception, send_values, bind, sendall.
  destruct (send_script c) as [ | [ | n1] [ | [ | n2] [ | [ | n3] rest]]];
    cbn; intros H; try discriminate; unfold raise; eauto.
Qed.

(** C9. With the link up, [send_data] writes exactly 24 bytes: the 8-byte
    encodings of distance, other speed and ego speed, in that order; and
    decoding these bytes with the symmetric codec gives the three values
    back, exactly. *)
Theorem send_data_round_trip (data : telemetry) (c : connection) :
  valid_telemetry data = true ->
  sends_ok 3 c = true ->
  exists c',
    send_data data c = (Ok tt, c') /\
    exists sent,
      wire_out c' = wire_out c ++ sent /\
      sent = Struct.pack_d (MIO_Distance data)
             ++ Struct.pack_d (MIO_Velocity data)
             ++ Struct.pack_d (Ego_Velocity data) /\
      length sent = 24%nat /\
      decode_outbound sent = Ok data.
Proof.
  unfold valid_telemetry. rewrite !andb_true_iff.
  intros [[Hd Hv] Hs] Hok.
  eexists. split; [apply send_data_ok; exact Hok | ].
  cbn [wire_out]. eexists. split; [reflexivity | ].
  split; [reflexivity | ]. split.
  - rewrite !length_app, !StructFacts.pack_d_length. reflexivity.
  - destruct data as [d v s]. apply decode_outbound_packed; assumption.
Qed.

Lemma send_data_round_trip_witness :
  exists c',
    send_data sample_telemetry link_up = (Ok tt, c') /\
    exists sent,
      wire_out c' = wire_out link_up ++ sent /\
      sent = Struct.pack_d (MIO_Distance sample_telemetry)
             ++ Struct.pack_d (MIO_Velocity sample_telemetry)
             ++ Struct.pack_d (Ego_Velocity sample_telemetry) /\
      length sent = 24%nat /\
      decode_outbound sent = Ok sample_telemetry.
Proof.
  apply (send_data_round_trip sample_telemetry link_up); reflexivity.
Defined.

(** ** calculate_ttc *)

Lemma gtb_zero_not_leb (x : float) :
  F64.gtb x F64.zero = true -> F64.leb x F64.zero = false.
Proof.
  destruct x as [s | s | | s m e]; try destruct s; cbn; congruence.
Qed.

(** C5. For a positive relative velocity the time to collision is the
    quotient distance / relative velocity; for a relative velocity that is
    zero or negative it is plus infinity. *)
Theorem calculate_ttc_spec (distance relative_velocity : float) :
  (F64.gtb relative_velocity F64.zero = true ->
   calculate_ttc distance relative_velocity
   = F64.div distance relative_velocity) /\
  (F64.leb relative_velocity F64.zero = true ->
   calculate_ttc distance relative_velocity = F64.pinf).
Proof.
  unfold calculate_ttc. split; intros H.
  - rewrite (gtb_zero_not_leb _ H). reflexivity.
  - rewrite H. reflexivity.
Qed.

Lemma calculate_ttc_spec_witness :
  calculate_ttc (F64.of_Z 10) (F64.of_Z 4) = F64.c2_5 /\
  calculate_ttc (F64.of_Z 10) (F64.of_Z (-4)) = F64.pinf.
Proof.
  split.
  - rewrite (proj1 (calculate_ttc_spec (F64.of_Z 10) (F64.of_Z 4)));
      [vm_compute; reflexivity | vm_compute; reflexivity].
  - apply (proj2 (calculate_ttc_spec (F64.of_Z 10) (F64.of_Z (-4)))).
    vm_compute; reflexivity.
Defined.

(** ** control_ego *)

(** C1. When the AEB is active, or the ego is told to stop, or the
    collision flag is set, the command is zero throttle, brake 1 and zero
    steer, whatever the deceleration and the elapsed time. *)
Theorem control_ego_safety_override
    (sim_time : float) (sim_data : decision) (collision : bool) :
  AEB_Status sim_data = true \/ egoCarStop sim_data = true
  \/ collision = true ->
  control_ego sim_time sim_data collision = full_brake /\
  is_full_brake (control_ego sim_time sim_data collision).
Proof.
  intros H. unfold control_ego.
  assert (AEB_Status sim_data || egoCarStop sim_data || collision = true)
    as ->.
  { destruct H as [-> | [-> | ->]]; rewrite ?orb_true_r; reflexivity. }
  split; [reflexivity | repeat split].
Qed.

Lemma control_ego_safety_override_witness :
  is_full_brake
    (control_ego F64.c3_0
       {| egoCarStop := false; FCW_Activate := true;
          Deceleration := F64.c0_3; AEB_Status := true |} false).
Proof.
  apply (control_ego_safety_override F64.c3_0
           {| egoCarStop := false; FCW_Activate := true;
              Deceleration := F64.c0_3; AEB_Status := true |} false).
  left. reflexivity.
Defined.

Lemma py_max_floor (a b : float) :
  F64.leb a a = true -> F64.leb a (py_max a b) = true.
Proof.
  intros Ha. unfold py_max, F64.gtb, SFltb.
  destruct (SFcompare a b) as [[ | | ] | ] eqn:E; try exact Ha.
  unfold F64.leb, SFleb. rewrite E. reflexivity.
Qed.

(** C6, as the program has it.  Without a safety override: past the
    engagement threshold of 2.5 the throttle is the greater of the floor
    0.3 and 0.5 - deceleration and the brake is the deceleration, each
    rounded to the 32 bits in which the command stores it, and the steer is
    zero; up to the threshold the command is zero throttle and full
    brake. *)
Theorem control_ego_engagement (sim_time : float) (sim_data : decision) :
  AEB_Status sim_data = false ->
  egoCarStop sim_data = false ->
  let c := control_ego sim_time sim_data false in
  let nominal := F64.sub F64.c0_5 (Deceleration sim_data) in
  (F64.gtb sim_time F64.c2_5 = true ->
   (F64.gtb nominal F64.c0_3 = true -> throttle c = F32.store nominal) /\
   (F64.gtb nominal F64.c0_3 = false -> throttle c = F32.store F64.c0_3) /\
   brake c = F32.store (Deceleration sim_data) /\
   steer c = F64.zero) /\
  (F64.gtb sim_time F64.c2_5 = false ->
   throttle c = F64.zero /\ brake c = F64.one /\ steer c = F64.zero).
Proof.
  intros Haeb Hstop c nominal. unfold c, control_ego.
  rewrite Haeb, Hstop. cbn [orb].
  split; intros ->.
  - cbn [throttle brake steer set_throttle set_brake set_steer].
    fold nominal. unfold py_max.
    split; [intros ->; reflexivity | ].
    split; [intros ->; reflexivity | ].
    split; reflexivity.
  - split; [reflexivity | split; reflexivity].
Qed.

Lemma control_ego_engagement_witness :
  (throttle (control_ego F64.c3_0 slight_deceleration false) = single_0_4 /\
   brake (control_ego F64.c3_0 slight_deceleration false) = single_0_1) /\
  (throttle (control_ego F64.c3_0 mild_deceleration false) = single_0_3 /\
   brake (control_ego F64.c3_0 mild_deceleration false) = single_0_4) /\
  throttle (control_ego F64.c2_5 mild_deceleration false) = F64.zero.
Proof.
  pose proof (proj1 (control_ego_engagement F64.c3_0 slight_deceleration
                       eq_refl eq_refl) eq_refl) as (Ha & _ & Hb & _).
  pose proof (proj1 (control_ego_engagement F64.c3_0 mild_deceleration
                       eq_refl eq_refl) eq_refl) as (_ & Hc & Hd & _).
  pose proof (proj2 (control_ego_engagement F64.c2_5 mild_deceleration
                       eq_refl eq_refl) eq_refl) as (He & _).
  split; [split | split; [split | ]].
  - rewrite (Ha eq_refl). vm_compute. reflexivity.
  - rewrite Hb. vm_compute. reflexivity.
  - rewrite (Hc eq_refl). vm_compute. reflexivity.
  - rewrite Hd. vm_compute. reflexivity.
  - exact He.
Defined.

(** C6, as the claim has it, fails: a deceleration of 0.3 received past
    the threshold, with no override, gives a command whose brake is not
    the deceleration 0.3 and whose throttle is not max(0.3, 0.5 - 0.3) =
    0.3: both hold the 32-bit value 0.30000001192092896. *)
Lemma control_ego_single_precision :
  F64.gtb F64.c3_0 F64.c2_5 = true /\
  Deceleration floor_deceleration = F64.c0_3 /\
  brake (control_ego F64.c3_0 floor_deceleration false)
  = S754_finite false 5404319767592960 (-54) /\
  brake (control_ego F64.c3_0 floor_deceleration false)
  <> Deceleration floor_deceleration /\
  F64.gtb (F64.sub F64.c0_5 F64.c0_3) F64.c0_3 = false /\
  throttle (control_ego F64.c3_0 floor_deceleration false)
  = S754_finite false 5404319767592960 (-54) /\
  throttle (control_ego F64.c3_0 floor_deceleration false) <> F64.c0_3.
Proof.
  split; [reflexivity | ].
  split; [reflexivity | ].
  split; [vm_compute; reflexivity | ].
  split; [vm_compute; discriminate | ].
  split; [vm_compute; reflexivity | ].
  split; [vm_compute; reflexivity | vm_compute; discriminate].
Qed.

(** ** receive_data never raises *)

Lemma recv_exn (n : nat) (c c' : connection) (e : exn) :
  recv n c = (Raise e, c') -> e = SocketTimeout \/ e = OSError.
Proof.
  unfold recv.
  destruct (recv_script c) as [ | [data | | ] rest].
  - intros H. injection H as <- _. left. reflexivity.
  - destruct (Nat.leb (length data) n); discriminate.
  - intros H. injection H as <- _. left. reflexivity.
  - intros H. injection H as <- _. right. reflexivity.
Qed.

Lemma receive_one_exn (c c' : connection) (e : exn) :
  receive_one c = (Raise e, c') -> is_Exception e = true.
Proof.
  unfold receive_one, bind.
  destruct (recv 8 c) as [[data | e0] c0] eqn:Hrecv.
  - destruct (Nat.ltb (length data) 8); [discriminate | ].
    unfold lift, Struct.unpack_d.
    destruct (Nat.eqb (length data) 8); [discriminate | ].
    intros H. injection H as <- _. reflexivity.
  - intros H. injection H as <- _.
    destruct (recv_exn _ _ _ _ Hrecv) as [-> | ->]; reflexivity.
Qed.

Lemma receive_loop_exn (n : nat) (values : list float) (c c' : connection)
    (e : exn) :
  receive_loop n values c = (Raise e, c') -> is_Exception e = true.
Proof.
  revert values c. induction n as [ | n IH]; intros values c.
  - discriminate.
  - cbn [receive_loop]. unfold bind at 1. unfold try_except_timeout.
    destruct (receive_one c) as [[[v | ] | e0] c0] eqn:Hone.
    + apply IH.
    + apply IH.
    + apply receive_one_exn in Hone.
      destruct e0; try discriminate;
        intros H; injection H as <- _; reflexivity.
Qed.

Lemma build_result_exn (values : list float) (e : exn) :
  build_result values = Raise e -> is_Exception e = true.
Proof.
  assert (forall A (l : list A) i e0,
             index l i = Raise e0 -> is_Exception e0 = true) as Hindex.
  { intros A l i e0. unfold index.
    destruct (nth_error l i); [discriminate | ].
    intros H. injection H as <-. reflexivity. }
  assert (forall x e0, py_round x = Raise e0 -> is_Exception e0 = true)
    as Hround.
  { intros x e0. destruct x; cbn; try discriminate;
      intros H; injection H as <-; reflexivity. }
  unfold build_result.
  repeat match goal with
         | |- context [match index ?l ?i with _ => _ end] =>
             let H := fresh "H" in
             destruct (index l i) eqn:H;
             [ | intros H'; injection H' as <-; eapply Hindex; exact H]
         | |- context [match py_round ?x with _ => _ end] =>
             let H := fresh "H" in
             destruct (py_round x) eqn:H;
             [ | intros H'; injection H' as <-; eapply Hround; exact H]
         end.
  discriminate.
Qed.

Lemma receive_data_returns (c : connection) :
  exists (d : decision) (c' : connection), receive_data c = (Ok d, c').
Proof.
  unfold receive_data, try_except_Exception, bind.
  destruct (receive_loop 4 [] c) as [[[values | d] | e] c0] eqn:Hloop.
  - unfold lift. destruct (build_result values) as [d | e] eqn:Hb.
    + eauto.
    + rewrite (build_result_exn _ _ Hb). unfold ret. eauto.
  - unfold ret. eauto.
  - rewrite (receive_loop_exn _ _ _ _ _ Hloop). unfold ret. eauto.
Qed.

(** C10. Whatever the socket produces (full reads, short reads, timeouts,
    errors), [receive_data] raises nothing and returns a decision: no
    failure of the exchange is reported to its caller. *)
Theorem receive_data_total (c : connection) :
  exists (d : decision) (c' : connection),
    receive_data c = (Ok d, c') /\
    forall e c'', receive_data c <> (Raise e, c'').
Proof.
  destruct (receive_data_returns c) as (d & c' & H).
  exists d, c'. split; [exact H | ].
  intros e c''. rewrite H. discriminate.
Qed.

(** A timeout or an error in one of the reads gives the default decision. *)
Lemma receive_loop_fault (n : nat) (values : list float) (c : connection) :
  recv_fault n (recv_script c) = true ->
  (exists c', receive_loop n values c = (Ok (Returned default_decision), c'))
  \/ (exists e c', receive_loop n values c = (Raise e, c')).
Proof.
  revert values c. induction n as [ | n IH]; intros values c; [discriminate | ].
  cbn [recv_fault receive_loop].
  unfold bind at 1. unfold try_except_timeout, receive_one, bind, recv.
  destruct (recv_script c) as [ | [data | | ] rest] eqn:Hrs.
  - intros _. left. unfold ret. eauto.
  - destruct (Nat.leb (length data) 8) eqn:Hlen; intros Hf.
    + destruct (Nat.ltb (length data) 8).
      * cbn [ret]. apply IH. exact Hf.
      * unfold lift. destruct (Struct.unpack_d data).
        -- cbn [ret]. apply IH. exact Hf.
        -- destruct e;
             first [ left; unfold ret; eexists; reflexivity
                   | right; do 2 eexists; reflexivity ].
    + destruct (Nat.ltb (length (firstn 8 data)) 8).
      * cbn [ret]. apply IH. exact Hf.
      * unfold lift. destruct (Struct.unpack_d (firstn 8 data)).
        -- cbn [ret]. apply IH. exact Hf.
        -- destruct e;
             first [ left; unfold ret; eexists; reflexivity
                   | right; do 2 eexists; reflexivity ].
  - intros _. left. unfold ret. eauto.
  - intros _. right. eauto.
Qed.

Lemma receive_data_fault (c : connection) :
  recv_fault 4 (recv_script c) = true ->
  exists c', receive_data c = (Ok default_decision, c').
Proof.
  intros Hf. unfold receive_data, try_except_Exception, bind.
  destruct (receive_loop_fault 4 [] c Hf) as [[c' H] | [e [c' H]]]; rewrite H.
  - unfold ret. eauto.
  - rewrite (receive_loop_exn _ _ _ _ _ H). unfold ret. eauto.
Qed.

(** ** One pass of the loop *)

Lemma exchange_returns (w : world_obs) (st : loop_state) :
  exists d c, exchange w st = Ok (d, c).
Proof.
  unfold exchange. destruct (conn st) as [c | ]; [ | eauto].
  unfold bind.
  destruct (send_data _ c) as [[u | e] c0] eqn:Hs.
  - destruct (receive_data_returns c0) as (d & c' & ->). eauto.
  - rewrite (send_data_exn _ _ _ _ Hs). eauto.
Qed.

(** Neither a quit event nor a simulator failure: the pass completes. *)
Lemma tick_continues (w : world_obs) (st : loop_state) :
  quit_event w = false -> world_fault w = None ->
  exists st' out, tick w st = Continue st' out.
Proof.
  intros Hq Hw. unfold tick. rewrite Hq, Hw.
  destruct (exchange_returns w st) as (d & c & ->). eauto.
Qed.

Lemma tick_sim_data (w : world_obs) (st st' : loop_state) (out : tick_output) :
  tick w st = Continue st' out ->
  exists c, exchange w st = Ok (sim_data st', c).
Proof.
  unfold tick. destruct (quit_event w); [discriminate | ].
  destruct (world_fault w); [discriminate | ].
  destruct (exchange w st) as [[d c] | e]; [ | discriminate].
  intros H. injection H as <- _. cbn. eauto.
Qed.

Lemma exchange_send_failure (w : world_obs) (st : loop_state) (c : connection) :
  conn st = Some c -> sends_ok 3 c = false ->
  exists c', exchange w st = Ok (sim_data st, c').
Proof.
  intros Hc Hs. unfold exchange. rewrite Hc. unfold bind.
  destruct (send_data_fail {| MIO_Distance := distance w;
                              MIO_Velocity := cyclist_speed w;
                              Ego_Velocity := ego_speed w |} c Hs)
    as (e & c' & H).
  rewrite H, (send_data_exn _ _ _ _ H). eauto.
Qed.

Lemma exchange_recv_failure (w : world_obs) (st : loop_state) (c : connection) :
  conn st = Some c -> sends_ok 3 c = true ->
  recv_fault 4 (recv_script c) = true ->
  exists c', exchange w st = Ok (default_decision, c').
Proof.
  intros Hc Hs Hr. unfold exchange. rewrite Hc. unfold bind.
  rewrite (send_data_ok _ _ Hs).
  match goal with
  | |- context [receive_data ?c0] =>
      destruct (receive_data_fault c0 Hr) as (c' & ->)
  end.
  eauto.
Qed.

(** C3, as the program has it.  A pass that meets no quit event and no
    simulator failure always completes, whatever the link does.  When a
    send fails the decision of the previous pass is kept; when the sends
    succeed and a receive times out or fails, the decision becomes the
    safe default, whatever the previous decision was. *)
Theorem tick_exchange_failure (w : world_obs) (st : loop_state) (c : connection) :
  quit_event w = false -> world_fault w = None -> conn st = Some c ->
  exists st' out,
    tick w st = Continue st' out /\
    (sends_ok 3 c = false -> sim_data st' = sim_data st) /\
    (sends_ok 3 c = true -> recv_fault 4 (recv_script c) = true ->
     sim_data st' = default_decision).
Proof.
  intros Hq Hw Hc.
  destruct (tick_continues w st Hq Hw) as (st' & out & Ht).
  exists st', out. split; [exact Ht | ].
  destruct (tick_sim_data _ _ _ _ Ht) as (c1 & He).
  split.
  - intros Hs. destruct (exchange_send_failure w st c Hc Hs) as (c2 & H).
    congruence.
  - intros Hs Hr.
    destruct (exchange_recv_failure w st c Hc Hs Hr) as (c2 & H).
    congruence.
Qed.

Lemma tick_exchange_failure_witness :
  (exists st' out,
     tick far_apart braking_then_broken = Continue st' out /\
     sim_data st' = aeb_decision) /\
  (exists st' out,
     tick far_apart braking_then_silence = Continue st' out /\
     sim_data st' = default_decision).
Proof.
  split.
  - destruct (tick_exchange_failure far_apart braking_then_broken
                {| send_script := [SendFail 0]; recv_script := [];
                   wire_out := [] |} eq_refl eq_refl eq_refl)
      as (st' & out & Ht & Hsend & _).
    exists st', out. split; [exact Ht | ]. apply Hsend. reflexivity.
  - destruct (tick_exchange_failure far_apart braking_then_silence
                {| send_script := []; recv_script := [RecvTimeout];
                   wire_out := [] |} eq_refl eq_refl eq_refl)
      as (st' & out & Ht & _ & Hrecv).
    exists st', out. split; [exact Ht | ]. apply Hrecv; reflexivity.
Defined.

(** C3, as the claim has it, fails: the AEB decision of the previous pass
    is not kept when the receive times out; the pass goes on with the
    default decision, in which the AEB is off. *)
Lemma timeout_drops_previous_decision :
  exists st' out,
    tick far_apart braking_then_silence = Continue st' out /\
    recv_fault 4 [RecvTimeout] = true /\
    AEB_Status (sim_data braking_then_silence) = true /\
    sim_data st' <> sim_data braking_then_silence /\
    sim_data st' = default_decision.
Proof.
  do 2 eexists. split; [vm_compute; reflexivity | ].
  cbn [sim_data]. repeat split; try reflexivity. discriminate.
Qed.

(** ** The collision flag *)





(** The pass on which the flag is set derives its command from the flag
    as the previous pass left it: the full brake starts with the next
    pass. *)
Lemma latching_pass_command :
  exists st' out,
    tick close_by cruising = Continue st' out /\
    collision st' = true /\
    throttle (ctrl out) = F64.c0_5 /\ brake (ctrl out) = F64.zero.
Proof.
  do 2 eexists. split; [vm_compute; reflexivity | ].
  repeat split.
Qed.

(** ** Decoding an inbound message *)

Lemma round_half_even_nearest (m k : Z) :
  0 < k -> 2 * Z.abs (round_half_even m k * 2 ^ k - m) <= 2 ^ k.
Proof.
  intros Hk. unfold round_half_even.
  assert (0 < 2 ^ k) as HP by (apply Z.pow_pos_nonneg; lia).
  pose proof (Z.div_mod m (2 ^ k) ltac:(lia)) as Hdm.
  pose proof (Z.mod_pos_bound m (2 ^ k) HP) as Hr.
  set (P := 2 ^ k) in *. set (q := m / P) in *. set (r := m mod P) in *.
  assert (m = q * P + r) as Hm by lia.
  destruct (Z.compare_spec (2 * r) P) as [He | Hl | Hg].
  - destruct (Z.even q); lia.
  - lia.
  - lia.
Qed.

Lemma py_round_nearest (x : float) :
  F64.is_finite x = true ->
  exists n, py_round x = Ok n /\ nearest_integer x n.
Proof.
  destruct x as [s | s | | s m e]; try discriminate; intros _.
  - exists 0. split; reflexivity.
  - cbn [py_round nearest_integer]. eexists. split; [reflexivity | ].
    destruct (Z.leb_spec 0 e) as [He | He]; [reflexivity | ].
    pose proof (round_half_even_nearest (Z.pos m) (- e) ltac:(lia)) as H.
    destruct s; cbn [cond_Zopp]; lia.
Qed.

Lemma recv_8_more (c : connection) (a b : list byte) (rest : list recv_result) :
  length a = 8%nat -> b <> [] ->
  recv_script c = RecvData (a ++ b) :: rest ->
  recv 8 c = (Ok a, with_recv_script c (RecvData b :: rest)).
Proof.
  intros La Hb Hc. unfold recv. rewrite Hc.
  assert (Nat.leb (length (a ++ b)) 8 = false) as ->.
  { apply Nat.leb_gt. rewrite length_app, La.
    destruct b; [congruence | cbn; lia]. }
  rewrite (firstn_exact 8) by exact La.
  rewrite (skipn_exact 8) by exact La. reflexivity.
Qed.

Lemma recv_8_last (c : connection) (a : list byte) (rest : list recv_result) :
  length a = 8%nat ->
  recv_script c = RecvData a :: rest ->
  recv 8 c = (Ok a, with_recv_script c rest).
Proof.
  intros La Hc. unfold recv. rewrite Hc, La. reflexivity.
Qed.

Lemma receive_one_full (c c' : connection) (v : float) :
  F64.valid v = true ->
  recv 8 c = (Ok (Struct.pack_d v), c') ->
  try_except_timeout receive_one c = (Ok (inl (Some v)), c').
Proof.
  intros Hv Hr. unfold try_except_timeout, receive_one, bind. rewrite Hr.
  rewrite StructFacts.pack_d_length. cbn [Nat.ltb Nat.leb].
  unfold lift. rewrite (StructFacts.unpack_d_pack_d _ Hv). reflexivity.
Qed.

Lemma pack_d_app_nonempty (v : float) (bs : list byte) :
  Struct.pack_d v ++ bs <> [].
Proof.
  pose proof (StructFacts.pack_d_length v) as L.
  destruct (Struct.pack_d v); [discriminate | discriminate].
Qed.

Lemma receive_loop_more (n : nat) (values : list float) (c : connection)
    (v : float) (b : list byte) (rest : list recv_result) :
  F64.valid v = true -> b <> [] ->
  recv_script c = RecvData (Struct.pack_d v ++ b) :: rest ->
  receive_loop (S n) values c
  = receive_loop n (values ++ [v]) (with_recv_script c (RecvData b :: rest)).
Proof.
  intros Hv Hb Hc. cbn [receive_loop]. unfold bind at 1.
  rewrite (receive_one_full c _ v Hv
             (recv_8_more c _ b rest (StructFacts.pack_d_length v) Hb Hc)).
  reflexivity.
Qed.

Lemma receive_loop_last (n : nat) (values : list float) (c : connection)
    (v : float) (rest : list recv_result) :
  F64.valid v = true ->
  recv_script c = RecvData (Struct.pack_d v) :: rest ->
  receive_loop (S n) values c
  = receive_loop n (values ++ [v]) (with_recv_script c rest).
Proof.
  intros Hv Hc. cbn [receive_loop]. unfold bind at 1.
  rewrite (receive_one_full c _ v Hv
             (recv_8_last c _ rest (StructFacts.pack_d_length v) Hc)).
  reflexivity.
Qed.

Lemma receive_loop_message (c : connection) (v0 v1 v2 v3 : float)
    (rest : list recv_result) :
  F64.valid v0 = true -> F64.valid v1 = true ->
  F64.valid v2 = true -> F64.valid v3 = true ->
  recv_script c = RecvData (inbound_bytes v0 v1 v2 v3) :: rest ->
  receive_loop 4 [] c
  = (Ok (Fallthrough [v0; v1; v2; v3]), with_recv_script c rest).
Proof.
  intros H0 H1 H2 H3 Hc. unfold inbound_bytes in Hc.
  assert (Struct.pack_d v3 <> []) as N3.
  { pose proof (StructFacts.pack_d_length v3) as L.
    destruct (Struct.pack_d v3); discriminate. }
  rewrite (receive_loop_more 3 [] c v0 _ rest H0 (pack_d_app_nonempty _ _) Hc).
  rewrite (receive_loop_more 2 _
             (with_recv_script c
                (RecvData (Struct.pack_d v1 ++ Struct.pack_d v2
                           ++ Struct.pack_d v3) :: rest))
             v1 _ rest H1 (pack_d_app_nonempty v2 _) eq_refl).
  rewrite (receive_loop_more 1 _
             (with_recv_script _
                (RecvData (Struct.pack_d v2 ++ Struct.pack_d v3) :: rest))
             v2 _ rest H2 N3 eq_refl).
  rewrite (receive_loop_last 0 _
             (with_recv_script _ (RecvData (Struct.pack_d v3) :: rest))
             v3 rest H3 eq_refl).
  reflexivity.
Qed.

(** C7. An inbound message is read as four consecutive 8-byte floats.
    With finite first, second and fourth values, each of these is rounded
    to a nearest integer and the field is true exactly when that integer
    is not zero; the third value is kept as it is.  In particular
    [1.0, 0.0, 0.3, 1.0] decodes to stop, no warning, 0.3, AEB active, and
    [0.6, 0.4, 0.0, 0.0] to stop, no warning, 0.0, AEB off. *)
Theorem receive_data_decodes :
  (forall (c : connection) (v0 v1 v2 v3 : float) (rest : list recv_result),
      F64.valid v0 = true -> F64.valid v1 = true ->
      F64.valid v2 = true -> F64.valid v3 = true ->
      F64.is_finite v0 = true -> F64.is_finite v1 = true ->
      F64.is_finite v3 = true ->
      recv_script c = RecvData (inbound_bytes v0 v1 v2 v3) :: rest ->
      exists n0 n1 n3,
        nearest_integer v0 n0 /\ nearest_integer v1 n1 /\
        nearest_integer v3 n3 /\
        receive_data c =
          (Ok {| egoCarStop := negb (n0 =? 0);
                 FCW_Activate := negb (n1 =? 0);
                 Deceleration := v2;
                 AEB_Status := negb (n3 =? 0) |},
           with_recv_script c rest)) /\
  fst (receive_data
         (arriving [RecvData (inbound_bytes F64.one F64.zero F64.c0_3 F64.one)]))
  = Ok {| egoCarStop := true; FCW_Activate := false;
          Deceleration := F64.c0_3; AEB_Status := true |} /\
  fst (receive_data
         (arriving [RecvData (inbound_bytes F64.c0_6 F64.c0_4 F64.zero F64.zero)]))
  = Ok {| egoCarStop := true; FCW_Activate := false;
          Deceleration := F64.zero; AEB_Status := false |}.
Proof.
  split; [ | split; vm_compute; reflexivity].
  intros c v0 v1 v2 v3 rest H0 H1 H2 H3 F0 F1 F3 Hc.
  destruct (py_round_nearest v0 F0) as (n0 & R0 & N0).
  destruct (py_round_nearest v1 F1) as (n1 & R1 & N1).
  destruct (py_round_nearest v3 F3) as (n3 & R3 & N3).
  exists n0, n1, n3. repeat (split; [assumption | ]).
  unfold receive_data, try_except_Exception, bind.
  rewrite (receive_loop_message c v0 v1 v2 v3 rest H0 H1 H2 H3 Hc).
  unfold lift, build_result. cbn [index nth_error].
  rewrite R0, R1, R3. reflexivity.
Qed.

Lemma receive_data_decodes_witness :
  exists n0 n1 n3,
    nearest_integer F64.c0_6 n0 /\ nearest_integer F64.c0_4 n1 /\
    nearest_integer F64.zero n3 /\
    receive_data
      (arriving [RecvData (inbound_bytes F64.c0_6 F64.c0_4 F64.c0_3 F64.zero)])
    = (Ok {| egoCarStop := negb (n0 =? 0);
             FCW_Activate := negb (n1 =? 0);
             Deceleration := F64.c0_3;
             AEB_Status := negb (n3 =? 0) |},
       arriving []).
Proof.
  apply (proj1 receive_data_decodes
           (arriving [RecvData (inbound_bytes F64.c0_6 F64.c0_4 F64.c0_3 F64.zero)])
           F64.c0_6 F64.c0_4 F64.c0_3 F64.zero []);
    reflexivity.
Defined.

(** ** Rounding a value below one half

    The throttle past the engagement threshold is [0.5 - deceleration];
    the lemmas below follow the subtraction through its alignment and its
    rounding to show that it stays below one when the deceleration is
    not negative. *)

Lemma iter_xO_pow2 (m d : positive) :
  Z.pos (Pos.iter xO m d) = Z.pos m * 2 ^ Z.pos d.
Proof.
  induction d as [ | d IH] using Pos.peano_ind.
  - cbn. lia.
  - rewrite Pos.iter_succ, Pos2Z.inj_xO, IH, Pos2Z.inj_succ.
    rewrite Z.pow_succ_r by lia. ring.
Qed.

Lemma shl_align_spec (m : positive) (e e' : Z) :
  snd (shl_align m e e') = Z.min e e' /\
  Z.pos (fst (shl_align m e e')) = Z.pos m * 2 ^ (e - Z.min e e').
Proof.
  unfold shl_align. destruct (e' - e) as [ | d | d] eqn:Hd; cbn [fst snd].
  - replace (Z.min e e') with e by lia. rewrite Z.sub_diag. cbn. lia.
  - replace (Z.min e e') with e by lia. rewrite Z.sub_diag. cbn. lia.
  - replace (Z.min e e') with e' by lia.
    replace (e - e') with (Z.pos d) by lia.
    split; [reflexivity | apply iter_xO_pow2].
Qed.

Lemma shr_1_half (mrs : shr_record) :
  0 <= shr_m mrs -> shr_m (shr_1 mrs) = shr_m mrs / 2.
Proof.
  destruct mrs as [m r s]. cbn [shr_m]. intros Hm.
  destruct m as [ | p | p]; [reflexivity | | lia].
  destruct p as [p | p | ]; cbn [shr_1 shr_m].
  - apply Z.div_unique with (r := 1); lia.
  - apply Z.div_unique with (r := 0); lia.
  - reflexivity.
Qed.

Lemma iter_shr_1_div (p : positive) (mrs : shr_record) :
  0 <= shr_m mrs ->
  shr_m (iter_pos shr_1 p mrs) = shr_m mrs / 2 ^ Z.pos p.
Proof.
  revert mrs. induction p as [p IH | p IH | ]; intros mrs Hm; cbn [iter_pos].
  - assert (0 <= shr_m (shr_1 mrs)) as H1
      by (rewrite shr_1_half by exact Hm; apply Z.div_pos; lia).
    assert (0 <= shr_m (iter_pos shr_1 p (shr_1 mrs))) as H2
      by (rewrite IH by exact H1; apply Z.div_pos; [ | apply Z.pow_pos_nonneg]; lia).
    rewrite IH by exact H2. rewrite IH by exact H1.
    rewrite shr_1_half by exact Hm.
    assert (0 < 2 ^ Z.pos p) by (apply Z.pow_pos_nonneg; lia).
    rewrite !Z.div_div by lia. f_equal.
    replace (Z.pos p~1) with (1 + Z.pos p + Z.pos p) by lia.
    rewrite !Z.pow_add_r by lia. change (2 ^ 1) with 2. ring.
  - assert (0 <= shr_m (iter_pos shr_1 p mrs)) as H2
      by (rewrite IH by exact Hm; apply Z.div_pos; [ | apply Z.pow_pos_nonneg]; lia).
    rewrite IH by exact H2. rewrite IH by exact Hm.
    assert (0 < 2 ^ Z.pos p) by (apply Z.pow_pos_nonneg; lia).
    rewrite !Z.div_div by lia. f_equal.
    replace (Z.pos p~0) with (Z.pos p + Z.pos p) by lia.
    rewrite !Z.pow_add_r by lia. ring.
  - rewrite shr_1_half by exact Hm. reflexivity.
Qed.

Lemma shr_spec (mrs : shr_record) (e n : Z) :
  0 <= shr_m mrs ->
  snd (shr mrs e n) = e + Z.max 0 n /\
  shr_m (fst (shr mrs e n)) = shr_m mrs / 2 ^ Z.max 0 n.
Proof.
  intros Hm. unfold shr. destruct n as [ | p | p]; cbn [fst snd].
  - cbn. rewrite Z.div_1_r. lia.
  - replace (Z.max 0 (Z.pos p)) with (Z.pos p) by lia.
    split; [reflexivity | apply iter_shr_1_div; exact Hm].
  - cbn. rewrite Z.div_1_r. lia.
Qed.

Lemma round_nearest_even_bounds (m : Z) (l : location) :
  m <= round_nearest_even m l <= m + 1.
Proof.
  unfold round_nearest_even.
  destruct l as [ | [ | | ]]; try destruct (Z.even m); lia.
Qed.

Lemma Zdigits2_le (m k : Z) :
  0 <= k -> 0 <= m < 2 ^ k -> Zdigits2 m <= k.
Proof.
  intros Hk Hm. destruct m as [ | p | p]; cbn [Zdigits2]; [lia | | lia].
  apply digits2_pos_le; lia.
Qed.

Lemma fexp_small (k : Z) : k <= -1 -> fexp F64.prec F64.emax k <= -54.
Proof. unfold fexp, emin, F64.prec, F64.emax. lia. Qed.

Lemma fexp_nonpos (k : Z) : k <= 0 -> fexp F64.prec F64.emax k <= -53.
Proof. unfold fexp, emin, F64.prec, F64.emax. lia. Qed.

Lemma binary_round_aux_small (mz : positive) (e1 : Z) :
  e1 <= -54 -> Z.pos mz < 2 ^ (- 1 - e1) ->
  below_one (binary_round_aux F64.prec F64.emax false (Z.pos mz) e1 loc_Exact).
Proof.
  intros He1 Hmz. unfold binary_round_aux, shr_fexp.
  cbn [shr_record_of_loc].
  set (rec0 := {| shr_m := Z.pos mz; shr_r := false; shr_s := false |}).
  set (n1 := fexp F64.prec F64.emax (Zdigits2 (Z.pos mz) + e1) - e1).
  destruct (shr_spec rec0 e1 n1 ltac:(cbn; lia)) as [He' Hm'].
  destruct (shr rec0 e1 n1) as [mrs' e'] eqn:Hshr1. cbn [fst snd] in He', Hm'.
  cbn [shr_m rec0] in Hm'.
  assert (Zdigits2 (Z.pos mz) <= - 1 - e1) as Hdig
    by (apply Zdigits2_le; lia).
  pose proof (fexp_small (Zdigits2 (Z.pos mz) + e1) ltac:(lia)) as Hfe.
  assert (e' <= -54) as He'54 by (unfold n1 in He'; lia).
  assert (e1 <= e') as Hle by lia.
  assert (0 <= shr_m mrs' < 2 ^ (- 1 - e')) as Hms.
  { rewrite Hm'. replace (Z.max 0 n1) with (e' - e1) by lia.
    assert (0 < 2 ^ (e' - e1)) by (apply Z.pow_pos_nonneg; lia).
    split; [apply Z.div_pos; lia | ].
    apply Z.div_lt_upper_bound; [lia | ].
    rewrite <- Z.pow_add_r by lia.
    replace (e' - e1 + (- 1 - e')) with (- 1 - e1) by lia. exact Hmz. }
  set (m1 := round_nearest_even (shr_m mrs') (loc_of_shr_record mrs')).
  pose proof (round_nearest_even_bounds (shr_m mrs') (loc_of_shr_record mrs'))
    as Hm1. fold m1 in Hm1.
  assert (0 <= m1 < 2 ^ (- e')) as Hm1'.
  { replace (- e') with (Z.succ (- 1 - e')) by lia.
    rewrite Z.pow_succ_r by lia.
    assert (0 < 2 ^ (- 1 - e')) by (apply Z.pow_pos_nonneg; lia). lia. }
  cbn [shr_record_of_loc].
  set (rec1 := {| shr_m := m1; shr_r := false; shr_s := false |}).
  set (n2 := fexp F64.prec F64.emax (Zdigits2 m1 + e') - e').
  destruct (shr_spec rec1 e' n2 ltac:(cbn; lia)) as [He'' _].
  destruct (shr rec1 e' n2) as [mrs'' e''] eqn:Hshr2. cbn [fst snd] in He''.
  assert (Zdigits2 m1 <= - e') as Hdig1 by (apply Zdigits2_le; lia).
  pose proof (fexp_nonpos (Zdigits2 m1 + e') ltac:(lia)) as Hfe1.
  assert (e'' <= -53) as He''53 by (unfold n2 in He''; lia).
  destruct (shr_m mrs'') as [ | m | m]; cbn [below_one]; [exact I | | exact I].
  destruct (Z.leb_spec e'' (F64.emax - F64.prec)) as [_ | Hover].
  - cbn [below_one]. exact He''53.
  - unfold F64.emax, F64.prec in Hover. lia.
Qed.

Lemma binary_round_small (m : positive) (ez : Z) :
  Z.pos m < 2 ^ (- 1 - ez) ->
  below_one (binary_round F64.prec F64.emax false m ez).
Proof.
  intros Hm. unfold binary_round.
  assert (ez <= -2) as Hez.
  { destruct (Z.le_gt_cases ez (-2)) as [H | H]; [exact H | exfalso].
    destruct (Z.eq_dec ez (-1)) as [-> | Hne].
    - cbn in Hm. lia.
    - rewrite Z.pow_neg_r in Hm by lia. lia. }
  set (target := fexp F64.prec F64.emax (Z.pos (digits2_pos m) + ez)).
  destruct (shl_align_spec m ez target) as [He1 Hmz].
  destruct (shl_align m ez target) as [mz e1]. cbn [fst snd] in He1, Hmz.
  assert (Z.pos (digits2_pos m) <= - 1 - ez) as Hdig
    by (apply digits2_pos_le; lia).
  pose proof (fexp_small (Z.pos (digits2_pos m) + ez) ltac:(lia)) as Hfe.
  fold target in Hfe.
  apply binary_round_aux_small; [lia | ].
  rewrite Hmz, He1.
  assert (0 < 2 ^ (ez - Z.min ez target)) by (apply Z.pow_pos_nonneg; lia).
  replace (- 1 - Z.min ez target)
    with ((- 1 - ez) + (ez - Z.min ez target)) by lia.
  rewrite Z.pow_add_r by lia. nia.
Qed.

Lemma binary_round_negative (m : positive) (ez : Z) :
  below_one (binary_round F64.prec F64.emax true m ez).
Proof.
  unfold binary_round.
  destruct (shl_align m ez _) as [mz e1].
  unfold binary_round_aux.
  destruct (shr_fexp _ _ _ _ _) as [mrs' e'].
  destruct (shr_fexp _ _ _ _ _) as [mrs'' e''].
  destruct (shr_m mrs''); cbn; try exact I.
  destruct (e'' <=? _); exact I.
Qed.

(** [0.5 - d] for a [d] that is not negative. *)
Lemma half_minus_nonneg (d : float) :
  F64.leb F64.zero d = true -> below_one (F64.sub F64.c0_5 d).
Proof.
  destruct d as [s | s | | s m e]; try (destruct s); try discriminate;
    intros _; try (cbn; lia).
  unfold F64.sub, F64.c0_5, SFsub.
  set (ez := Z.min (-53) e).
  destruct (shl_align_spec 4503599627370496 (-53) ez) as [_ HA].
  destruct (shl_align_spec m e ez) as [_ HB].
  cbn [cond_Zopp].
  set (A := Z.pos (fst (shl_align 4503599627370496 (-53) ez))) in *.
  set (B := Z.pos (fst (shl_align m e ez))) in *.
  assert (0 < B) as HBpos by (unfold B; lia).
  assert (A = 2 ^ (- 1 - ez)) as HA'.
  { rewrite HA. replace (Z.min (-53) ez) with ez by (unfold ez; lia).
    change (Z.pos 4503599627370496) with (2 ^ 52).
    rewrite <- Z.pow_add_r by (unfold ez; lia). f_equal. lia. }
  unfold binary_normalize.
  destruct (A - B) as [ | M | M] eqn:HM.
  - exact I.
  - apply binary_round_small. lia.
  - apply binary_round_negative.
Qed.
(** ** Storing a value of [0, 1] in 32 bits

    A command field holds the binary32 value nearest to what is assigned.
    Rounding is monotone and 0 and 1 are binary32 values, so a value of
    [0, 1] stays there; the lemmas follow the mantissa and the exponent
    through the rounding and back to 64 bits. *)

Lemma fexp_single (k : Z) : k <= 1 -> fexp F32.prec F32.emax k <= k - 24 \/
                                      fexp F32.prec F32.emax k = -149.
Proof. unfold fexp, emin, F32.prec, F32.emax. lia. Qed.

Lemma binary_round_aux_unit (mz : positive) (e1 : Z) :
  e1 <= -1 -> Z.pos mz < 2 ^ (- e1) ->
  unit_value
    (binary_round_aux F32.prec F32.emax false (Z.pos mz) e1 loc_Exact).
Proof.
  intros He1 Hmz. unfold binary_round_aux, shr_fexp.
  cbn [shr_record_of_loc].
  set (rec0 := {| shr_m := Z.pos mz; shr_r := false; shr_s := false |}).
  set (n1 := fexp F32.prec F32.emax (Zdigits2 (Z.pos mz) + e1) - e1).
  destruct (shr_spec rec0 e1 n1 ltac:(cbn; lia)) as [He' Hm'].
  destruct (shr rec0 e1 n1) as [mrs' e'] eqn:Hshr1. cbn [fst snd] in He', Hm'.
  cbn [shr_m rec0] in Hm'.
  assert (Zdigits2 (Z.pos mz) <= - e1) as Hdig
    by (apply Zdigits2_le; lia).
  pose proof (fexp_single (Zdigits2 (Z.pos mz) + e1) ltac:(lia)) as Hfe.
  assert (e' <= -1) as He'1 by (unfold n1 in He'; lia).
  assert (e1 <= e') as Hle by lia.
  assert (0 <= shr_m mrs' < 2 ^ (- e')) as Hms.
  { rewrite Hm'. replace (Z.max 0 n1) with (e' - e1) by lia.
    assert (0 < 2 ^ (e' - e1)) by (apply Z.pow_pos_nonneg; lia).
    split; [apply Z.div_pos; lia | ].
    apply Z.div_lt_upper_bound; [lia | ].
    rewrite <- Z.pow_add_r by lia.
    replace (e' - e1 + - e') with (- e1) by lia. exact Hmz. }
  set (m1 := round_nearest_even (shr_m mrs') (loc_of_shr_record mrs')).
  pose proof (round_nearest_even_bounds (shr_m mrs') (loc_of_shr_record mrs'))
    as Hm1. fold m1 in Hm1.
  assert (0 <= m1 <= 2 ^ (- e')) as Hm1' by lia.
  cbn [shr_record_of_loc].
  set (rec1 := {| shr_m := m1; shr_r := false; shr_s := false |}).
  set (n2 := fexp F32.prec F32.emax (Zdigits2 m1 + e') - e').
  destruct (shr_spec rec1 e' n2 ltac:(cbn; lia)) as [He'' Hm''].
  destruct (shr rec1 e' n2) as [mrs'' e''] eqn:Hshr2.
  cbn [fst snd] in He'', Hm''. cbn [shr_m rec1] in Hm''.
  assert (Zdigits2 m1 <= 1 - e') as Hdig1.
  { apply Zdigits2_le; [lia | ].
    replace (1 - e') with (Z.succ (- e')) by lia.
    rewrite Z.pow_succ_r by lia.
    assert (0 < 2 ^ (- e')) by (apply Z.pow_pos_nonneg; lia). lia. }
  pose proof (fexp_single (Zdigits2 m1 + e') ltac:(lia)) as Hfe1.
  assert (e'' <= 0) as He''0 by (unfold n2 in He''; lia).
  assert (e' <= e'') as Hle' by lia.
  assert (shr_m mrs'' <= 2 ^ (- e'')) as Hms''.
  { rewrite Hm''. replace (Z.max 0 n2) with (e'' - e') by lia.
    assert (0 < 2 ^ (e'' - e')) by (apply Z.pow_pos_nonneg; lia).
    apply Z.div_le_upper_bound; [lia | ].
    rewrite <- Z.pow_add_r by lia.
    replace (e'' - e' + - e'') with (- e') by lia. lia. }
  assert (0 <= shr_m mrs'') as Hpos''.
  { rewrite Hm''. apply Z.div_pos; [lia | apply Z.pow_pos_nonneg; lia]. }
  destruct (shr_m mrs'') as [ | m | m]; cbn [unit_value]; [exact I | | lia].
  destruct (Z.leb_spec e'' (F32.emax - F32.prec)) as [_ | Hover].
  - cbn [unit_value]. split; [exact He''0 | exact Hms''].
  - unfold F32.emax, F32.prec in Hover. lia.
Qed.

Lemma narrow_unit (m : positive) (e : Z) :
  e <= -1 -> Z.pos m < 2 ^ (- e) ->
  unit_value (F32.narrow (S754_finite false m e)).
Proof.
  intros He Hm. unfold F32.narrow, binary_round.
  set (target := fexp F32.prec F32.emax (Z.pos (digits2_pos m) + e)).
  destruct (shl_align_spec m e target) as [He1 Hmz].
  destruct (shl_align m e target) as [mz e1]. cbn [fst snd] in He1, Hmz.
  apply binary_round_aux_unit; [lia | ].
  rewrite Hmz, He1.
  assert (0 < 2 ^ (e - Z.min e target)) by (apply Z.pow_pos_nonneg; lia).
  replace (- Z.min e target) with (- e + (e - Z.min e target)) by lia.
  rewrite Z.pow_add_r by lia. nia.
Qed.

Lemma leb_one_intro (m : positive) (e : Z) :
  e <= -52 -> (e = -52 -> Z.pos m <= 2 ^ 52) ->
  F64.leb (S754_finite false m e) F64.one = true.
Proof.
  intros He Hm. unfold F64.leb, SFleb, F64.one, SFcompare.
  destruct (Z.compare_spec e (-52)) as [Heq | Hlt | Hgt];
    [ | reflexivity | lia].
  specialize (Hm Heq). rewrite Pos.compare_cont_spec. cbn [Pos.switch_Eq].
  change (2 ^ 52) with (Z.pos 4503599627370496) in Hm.
  destruct (Pos.compare_spec m 4503599627370496) as [_ | _ | Hgt];
    [reflexivity | reflexivity | ].
  apply Pos2Z.pos_lt_pos in Hgt. apply Z.lt_nge in Hgt. contradiction.
Qed.

Lemma leb_one_elim (m : positive) (e : Z) :
  F64.leb (S754_finite false m e) F64.one = true ->
  e <= -53 \/ (e = -52 /\ Z.pos m <= 2 ^ 52).
Proof.
  unfold F64.leb, SFleb, F64.one, SFcompare.
  destruct (Z.compare_spec e (-52)) as [Heq | Hlt | Hgt];
    [ | intros _; left; lia | discriminate].
  rewrite Pos.compare_cont_spec. cbn [Pos.switch_Eq].
  change (2 ^ 52) with (Z.pos 4503599627370496).
  destruct (Pos.compare_spec m 4503599627370496) as [H | H | H];
    intros G; [ | | discriminate G]; right; (split; [exact Heq | ]).
  - rewrite H. apply Z.le_refl.
  - apply Pos2Z.pos_le_pos, Pos.lt_le_incl, H.
Qed.

Lemma unit_value_exponent (m : positive) (e : Z) :
  e <= 0 -> Z.pos m <= 2 ^ (- e) -> Z.pos (digits2_pos m) - 1 <= - e.
Proof.
  intros He Hm. pose proof (digits2_pos_bounds m) as [Hlo _].
  destruct (Z.le_gt_cases (Z.pos (digits2_pos m) - 1) (- e)) as [H | H];
    [exact H | exfalso].
  assert (2 ^ (- e) < 2 ^ (Z.pos (digits2_pos m) - 1))
    by (apply Z.pow_lt_mono_r; lia).
  lia.
Qed.

Lemma widen_unit (r : float) :
  unit_value r ->
  F64.leb F64.zero (F32.widen r) = true /\
  F64.leb (F32.widen r) F64.one = true.
Proof.
  destruct r as [s | s | | s m e]; cbn [unit_value]; try contradiction.
  - intros _. destruct s; split; reflexivity.
  - destruct s; [contradiction | ]. intros [He Hm].
    pose proof (unit_value_exponent m e He Hm) as Hd.
    pose proof (digits2_pos_bounds m) as [Hlo Hhi].
    unfold F32.widen.
    destruct (53 - Z.pos (digits2_pos m)) as [ | k | k] eqn:Hk.
    + split; [reflexivity | ].
      apply leb_one_intro; [lia | ]. intros ->.
      change (- -52) with 52 in Hm. exact Hm.
    + split; [reflexivity | ].
      apply leb_one_intro; [lia | ]. intros Heq.
      rewrite iter_xO_pow2.
      assert (- e = Z.pos (digits2_pos m) - 1) as Hex by lia.
      rewrite Hex in Hm.
      assert (Z.pos m = 2 ^ (Z.pos (digits2_pos m) - 1)) as -> by lia.
      rewrite <- Z.pow_add_r by lia.
      replace (Z.pos (digits2_pos m) - 1 + Z.pos k) with 52 by lia.
      apply Z.le_refl.
    + split; [reflexivity | ].
      apply leb_one_intro; [lia | ]. intros ->.
      change (- -52) with 52 in Hm. exact Hm.
Qed.

(** A value of [0, 1] is stored as a value of [0, 1]. *)
Lemma store_in_unit (v : float) :
  F64.leb F64.zero v = true -> F64.leb v F64.one = true ->
  F64.leb F64.zero (F32.store v) = true /\
  F64.leb (F32.store v) F64.one = true.
Proof.
  intros H0 H1. unfold F32.store.
  destruct (F64.valid v) eqn:Hv; [ | split; assumption].
  destruct v as [s | s | | s m e]; try discriminate.
  - destruct s; split; reflexivity.
  - destruct s; discriminate.
  - destruct s; [discriminate | ].
    apply bounded_cases in Hv.
    destruct (leb_one_elim m e H1) as [He | [He Hm]].
    + apply widen_unit, narrow_unit; [lia | ].
      assert (Z.pos m < 2 ^ 53) as Hm53.
      { destruct Hv as [[Hm _] | [[_ Hm] _]]; [ | exact Hm].
        assert (2 ^ 52 < 2 ^ 53) by (apply Z.pow_lt_mono_r; lia). lia. }
      assert (2 ^ 53 <= 2 ^ (- e)) by (apply Z.pow_le_mono_r; lia).
      lia.
    + assert (Z.pos m = 2 ^ 52) as Heq.
      { destruct Hv as [[_ Hc] | [[Hlo _] _]]; [lia | ].
        revert Hm Hlo. generalize (2 ^ 52). intros; lia. }
      change (2 ^ 52) with (Z.pos 4503599627370496) in Heq.
      injection Heq as ->. subst e. split; vm_compute; reflexivity.
Qed.

(** The store on some values: 0.1, 0.3 and 0.4 move to their binary32
    neighbours, 0.5 and 1 are kept, 1e39 overflows to infinity and 1e-60
    underflows to zero. *)
Lemma store_examples :
  F32.store c0_1 = single_0_1 /\
  F32.store F64.c0_3 = single_0_3 /\
  F32.store F64.c0_4 = single_0_4 /\
  F32.store F64.c0_5 = F64.c0_5 /\
  F32.store F64.one = F64.one /\
  F32.store (F64.of_Z (10 ^ 39)) = F64.pinf /\
  F32.store (F64.literal 1 60) = F64.zero.
Proof. repeat split; vm_compute; reflexivity. Qed.

(** What is stored is a binary64 value again, and storing it once more
    changes nothing (checked on the values above). *)
Lemma store_idempotent_examples :
  forallb (fun v => F64.valid (F32.store v))
    [c0_1; F64.c0_3; F64.c0_4; F64.literal 1 60; F64.literal 1 40] = true /\
  F32.store single_0_1 = single_0_1 /\
  F32.store single_0_3 = single_0_3 /\
  F32.store single_0_4 = single_0_4.
Proof. repeat split; vm_compute; reflexivity. Qed.


(** ** The ranges of the command *)

Lemma below_one_in_range (r : float) :
  below_one r -> F64.gtb r F64.c0_3 = true ->
  F64.leb F64.zero r = true /\ F64.leb r F64.one = true.
Proof.
  destruct r as [s | s | | s m e]; try destruct s; cbn [below_one];
    intros Hb Hgt; try discriminate; try contradiction.
  split; [reflexivity | ].
  unfold F64.leb, SFleb, F64.one, SFcompare.
  destruct (Z.compare_spec e (-52)); [lia | reflexivity | lia].
Qed.

Lemma throttle_in_range (d : float) :
  F64.leb F64.zero d = true ->
  let t := py_max F64.c0_3 (F64.sub F64.c0_5 d) in
  F64.leb F64.zero t = true /\ F64.leb t F64.one = true.
Proof.
  intros Hd t. unfold t, py_max.
  destruct (F64.gtb (F64.sub F64.c0_5 d) F64.c0_3) eqn:Hgt.
  - apply below_one_in_range; [apply half_minus_nonneg; exact Hd | exact Hgt].
  - split; reflexivity.
Qed.

(** C8, as the program has it.  When the deceleration received lies in
    [0, 1], the command has its throttle and its brake in [0, 1] and its
    steer in [-1, 1], whatever the elapsed time and the flags. *)
Theorem control_ego_in_range
    (sim_time : float) (sim_data : decision) (collision : bool) :
  F64.leb F64.zero (Deceleration sim_data) = true ->
  F64.leb (Deceleration sim_data) F64.one = true ->
  in_range (control_ego sim_time sim_data collision) = true.
Proof.
  intros H0 H1. unfold control_ego.
  destruct (AEB_Status sim_data || egoCarStop sim_data || collision);
    [reflexivity | ].
  destruct (F64.gtb sim_time F64.c2_5); [ | reflexivity].
  destruct (throttle_in_range _ H0) as [Ht0 Ht1].
  destruct (store_in_unit _ Ht0 Ht1) as [Hs0 Hs1].
  destruct (store_in_unit _ H0 H1) as [Hb0 Hb1].
  unfold in_range. cbn [throttle steer brake set_steer set_brake set_throttle].
  rewrite Hs0, Hs1, Hb0, Hb1. reflexivity.
Qed.

Lemma control_ego_in_range_witness :
  in_range (control_ego F64.c3_0 mild_deceleration false) = true.
Proof.
  apply (control_ego_in_range F64.c3_0 mild_deceleration false);
    vm_compute; reflexivity.
Defined.

(** C8, as the claim has it, fails: a deceleration of 2.0 received past
    the engagement threshold is passed on as a brake of 2.0. *)
Lemma control_ego_out_of_range :
  brake (control_ego F64.c3_0 hard_deceleration false) = F64.two /\
  F64.leb (brake (control_ego F64.c3_0 hard_deceleration false)) F64.one
  = false /\
  in_range (control_ego F64.c3_0 hard_deceleration false) = false.
Proof. repeat split. Qed.

(** ** Short reads *)

Lemma receive_one_data (c : connection) (data : list byte)
    (rest : list recv_result) :
  recv_script c = RecvData data :: rest ->
  try_except_timeout receive_one c =
    if Nat.ltb (length data) 8 then
      (Ok (inl None), with_recv_script c rest)
    else if Nat.leb (length data) 8 then
      (Ok (inl (Some (Struct.float_of_bits (Struct.le_value data)))),
       with_recv_script c rest)
    else
      (Ok (inl (Some (Struct.float_of_bits
                        (Struct.le_value (firstn 8 data))))),
       with_recv_script c (RecvData (skipn 8 data) :: rest)).
Proof.
  intros Hc. unfold try_except_timeout, receive_one, bind, recv. rewrite Hc.
  destruct (Nat.ltb_spec (length data) 8) as [Hlt | Hge].
  - assert (Nat.leb (length data) 8 = true) as -> by (apply Nat.leb_le; lia).
    assert (Nat.ltb (length data) 8 = true) as -> by (apply Nat.ltb_lt; lia).
    reflexivity.
  - destruct (Nat.leb_spec (length data) 8) as [Hle | Hgt].
    + assert (length data = 8%nat) as L by lia.
      unfold lift, Struct.unpack_d. rewrite L. reflexivity.
    + assert (length (firstn 8 data) = 8%nat) as L
        by (rewrite length_firstn; lia).
      unfold lift, Struct.unpack_d. rewrite L. reflexivity.
Qed.

Lemma receive_loop_length (n : nat) (values values' : list float)
    (c c' : connection) :
  receive_loop n values c = (Ok (Fallthrough values'), c') ->
  (length values' <= length values + n)%nat.
Proof.
  revert values c. induction n as [ | n IH]; intros values c.
  - cbn. intros H. injection H as <- _. lia.
  - cbn [receive_loop]. unfold bind at 1.
    destruct (try_except_timeout receive_one c) as [[[[v | ] | u] | e] c0].
    + intros H. apply IH in H. rewrite length_app in H. cbn in H. lia.
    + intros H. apply IH in H. lia.
    + discriminate.
    + discriminate.
Qed.

Lemma receive_loop_short (n : nat) (values values' : list float)
    (c c' : connection) :
  recv_short n (recv_script c) = true ->
  receive_loop n values c = (Ok (Fallthrough values'), c') ->
  (length values' < length values + n)%nat.
Proof.
  revert values c. induction n as [ | n IH]; intros values c; [discriminate | ].
  cbn [recv_short receive_loop]. unfold bind at 1.
  destruct (recv_script c) as [ | [data | | ] rest] eqn:Hc; try discriminate.
  rewrite (receive_one_data c data rest Hc).
  destruct (Nat.ltb (length data) 8).
  - intros _ H. apply receive_loop_length in H. lia.
  - destruct (Nat.leb (length data) 8); intros Hs H.
    + apply IH in H; [ | exact Hs]. rewrite length_app in H. cbn in H. lia.
    + apply IH in H; [ | exact Hs]. rewrite length_app in H. cbn in H. lia.
Qed.

Lemma receive_loop_returned (n : nat) (values : list float)
    (c c' : connection) (d : decision) :
  receive_loop n values c = (Ok (Returned d), c') -> d = default_decision.
Proof.
  revert values c. induction n as [ | n IH]; intros values c; [discriminate | ].
  cbn [receive_loop]. unfold bind at 1.
  destruct (try_except_timeout receive_one c) as [[[[v | ] | u] | e] c0].
  - apply IH.
  - apply IH.
  - unfold ret. intros H. injection H as <- _. reflexivity.
  - discriminate.
Qed.

Lemma build_result_short (values : list float) :
  (length values < 4)%nat -> exists e, build_result values = Raise e.
Proof.
  unfold build_result.
  destruct values as [ | v0 [ | v1 [ | v2 [ | v3 rest]]]]; cbn [index nth_error length];
    intros H; try lia;
    repeat match goal with
           | |- context [match py_round ?x with _ => _ end] =>
               destruct (py_round x)
           end; eauto.
Qed.

(** A call that meets a short read returns the default decision: the
    values read around it are never handed to the caller. *)
Lemma receive_data_short_read (c : connection) :
  recv_short 4 (recv_script c) = true ->
  exists c', receive_data c = (Ok default_decision, c').
Proof.
  intros Hs. unfold receive_data, try_except_Exception, bind.
  destruct (receive_loop 4 [] c) as [[[values | d] | e] c0] eqn:Hloop.
  - pose proof (receive_loop_short _ _ _ _ _ Hs Hloop) as Hlen. cbn in Hlen.
    destruct (build_result_short values Hlen) as [e Hb].
    unfold lift. rewrite Hb, (build_result_exn _ _ Hb). unfold ret. eauto.
  - rewrite (receive_loop_returned _ _ _ _ _ Hloop). unfold ret. eauto.
  - rewrite (receive_loop_exn _ _ _ _ _ Hloop). unfold ret. eauto.
Qed.

(** C4 fails on the program.  Two messages [1.0, 0.0, 0.3, 1.0] are sent
    and the first read finds only three bytes.  The field is not read
    again: the call gives up with the default decision after four reads,
    27 bytes into the stream, and the next call takes the 32 bytes that
    follow for a message, handing out a decision read across the field
    boundaries: AEB off and a deceleration that was never sent. *)
Theorem short_read_desynchronises :
  exists c1 c2 d2,
    recv_short 4 (recv_script late_arrival) = true /\
    receive_data late_arrival = (Ok default_decision, c1) /\
    recv_script c1 = [RecvData (skipn 27 two_messages)] /\
    receive_data c1 = (Ok d2, c2) /\
    d2 <> default_decision /\
    AEB_Status d2 = false /\ egoCarStop d2 = false /\
    Deceleration d2 = S754_finite false 5404099650519040 (-256).
Proof.
  do 3 eexists.
  split; [reflexivity | ].
  split; [vm_compute; reflexivity | ].
  split; [reflexivity | ].
  split; [vm_compute; reflexivity | ].
  cbn [AEB_Status egoCarStop Deceleration].
  repeat split. discriminate.
Qed.

(** * Further properties *)

(** ** The sign of the time to collision *)

Lemma shr_record_of_loc_m (m : Z) (l : location) :
  shr_m (shr_record_of_loc m l) = m.
Proof. destruct l as [ | [ | | ]]; reflexivity. Qed.

(** Rounding a mantissa that is not negative keeps the sign asked for and
    gives no NaN. *)
Lemma binary_round_aux_sign (sx : bool) (mz ez : Z) (lz : location) :
  0 <= mz ->
  match binary_round_aux F64.prec F64.emax sx mz ez lz with
  | S754_zero s | S754_infinity s | S754_finite s _ _ => s = sx
  | S754_nan => False
  end.
Proof.
  intros Hm. unfold binary_round_aux, shr_fexp.
  set (rec0 := shr_record_of_loc mz lz).
  assert (0 <= shr_m rec0) as H0 by (unfold rec0; rewrite shr_record_of_loc_m; exact Hm).
  set (n1 := fexp F64.prec F64.emax (Zdigits2 mz + ez) - ez).
  destruct (shr_spec rec0 ez n1 H0) as [_ Hm1].
  destruct (shr rec0 ez n1) as [mrs' e']. cbn [fst snd] in Hm1.
  assert (0 <= shr_m mrs') as H1.
  { rewrite Hm1. apply Z.div_pos; [exact H0 | apply Z.pow_pos_nonneg; lia]. }
  set (m1 := round_nearest_even (shr_m mrs') (loc_of_shr_record mrs')).
  pose proof (round_nearest_even_bounds (shr_m mrs') (loc_of_shr_record mrs'))
    as Hr. fold m1 in Hr.
  set (rec1 := shr_record_of_loc m1 loc_Exact).
  assert (0 <= shr_m rec1) as H2 by (cbn; lia).
  set (n2 := fexp F64.prec F64.emax (Zdigits2 m1 + e') - e').
  destruct (shr_spec rec1 e' n2 H2) as [_ Hm2].
  destruct (shr rec1 e' n2) as [mrs'' e'']. cbn [fst snd] in Hm2.
  assert (0 <= shr_m mrs'') as H3.
  { rewrite Hm2. apply Z.div_pos; [exact H2 | apply Z.pow_pos_nonneg; lia]. }
  destruct (shr_m mrs'') as [ | m | m]; [reflexivity | | lia].
  destruct (e'' <=? F64.emax - F64.prec); reflexivity.
Qed.

Lemma SFdiv_core_binary_nonneg (mx my : positive) (ex ey : Z) :
  0 <= fst (fst (SFdiv_core_binary F64.prec F64.emax (Z.pos mx) ex (Z.pos my) ey)).
Proof.
  unfold SFdiv_core_binary.
  set (s := _ - _ - Z.min _ _).
  set (m' := match s with
             | 0 => Z.pos mx
             | Z.pos _ => Z.shiftl (Z.pos mx) s
             | Z.neg _ => 0
             end).
  assert (0 <= m') as Hm'.
  { unfold m'. destruct s; [lia | | lia]. apply Z.shiftl_nonneg. lia. }
  destruct (Z.div_eucl m' (Z.pos my)) as [q r] eqn:E. cbn [fst].
  assert (m' / Z.pos my = q) as <- by (unfold Z.div; rewrite E; reflexivity).
  apply Z.div_pos; lia.
Qed.

Lemma div_nonneg (d rv : float) :
  F64.is_finite d = true -> F64.leb F64.zero d = true ->
  F64.gtb rv F64.zero = true ->
  F64.leb F64.zero (F64.div d rv) = true.
Proof.
  intros Hf Hd Hrv.
  destruct rv as [sr | [ | ] | | [ | ] mr er]; try discriminate;
    destruct d as [sd | sd | | [ | ] md ed]; try discriminate;
    try (destruct sd; reflexivity); try reflexivity.
  unfold F64.div, SFdiv.
  pose proof (SFdiv_core_binary_nonneg md mr ed er) as Hq.
  destruct (SFdiv_core_binary F64.prec F64.emax (Z.pos md) ed (Z.pos mr) er)
    as [[mz ez] lz]. cbn [fst] in Hq. cbn [xorb].
  pose proof (binary_round_aux_sign false mz ez lz Hq) as Hs.
  destruct (binary_round_aux F64.prec F64.emax false mz ez lz)
    as [s | s | | s m e]; try contradiction; subst s; reflexivity.
Qed.

Lemma calculate_ttc_sign (distance relative_velocity : float) :
  F64.is_finite distance = true ->
  F64.leb F64.zero distance = true ->
  relative_velocity <> S754_nan ->
  F64.leb F64.zero (calculate_ttc distance relative_velocity) = true.
Proof.
  intros Hf Hd Hn. unfold calculate_ttc.
  destruct (F64.leb relative_velocity F64.zero) eqn:Hle; [reflexivity | ].
  apply div_nonneg; [exact Hf | exact Hd | ].
  destruct relative_velocity as [s | [ | ] | | [ | ] m e];
    try discriminate; try reflexivity; congruence.
Qed.

(** X1. For a distance that is finite and not negative and a relative
    velocity that is not a NaN, the time to collision is not negative and
    not a NaN. *)
Theorem calculate_ttc_nonneg (distance relative_velocity : float) :
  F64.is_finite distance = true ->
  F64.leb F64.zero distance = true ->
  relative_velocity <> S754_nan ->
  F64.leb F64.zero (calculate_ttc distance relative_velocity) = true.
Proof. exact (calculate_ttc_sign distance relative_velocity). Qed.

Lemma calculate_ttc_nonneg_witness :
  F64.leb F64.zero (calculate_ttc (F64.of_Z 40) (F64.of_Z 3)) = true.
Proof.
  apply (calculate_ttc_nonneg (F64.of_Z 40) (F64.of_Z 3));
    [reflexivity | reflexivity | discriminate].
Defined.

(** ** What a boolean field decodes to *)

Lemma round_half_even_zero_iff (m k : Z) :
  0 < m -> 0 < k ->
  (round_half_even m k = 0 <-> 2 * m <= 2 ^ k).
Proof.
  intros Hm Hk. unfold round_half_even.
  assert (0 < 2 ^ k) as HP by (apply Z.pow_pos_nonneg; lia).
  pose proof (Z.div_mod m (2 ^ k) ltac:(lia)) as Hdm.
  pose proof (Z.mod_pos_bound m (2 ^ k) HP) as Hr.
  assert (0 <= m / 2 ^ k) as Hq by (apply Z.div_pos; lia).
  set (P := 2 ^ k) in *. set (q := m / P) in *. set (r := m mod P) in *.
  assert (m = q * P + r) as Hmq by lia.
  assert (q = 0 \/ 1 <= q) as [Hq0 | Hq1] by lia.
  - rewrite Hq0 in *. cbn [Z.even].
    destruct (Z.compare_spec (2 * r) P); lia.
  - assert (P <= q * P) by nia.
    destruct (Z.compare_spec (2 * r) P); try destruct (Z.even q); lia.
Qed.

(** [bool(round(v))] is true exactly when [v] is more than one half away
    from zero. *)
Lemma py_bool_round (v : float) :
  F64.valid v = true -> F64.is_finite v = true ->
  exists n, py_round v = Ok n /\ py_bool n = F64.ltb F64.c0_5 (SFabs v).
Proof.
  destruct v as [s | s | | s m e]; try discriminate; intros Hv _.
  - exists 0. split; reflexivity.
  - cbn [py_round]. eexists. split; [reflexivity | ].
    apply bounded_cases in Hv.
    assert (forall z, py_bool (cond_Zopp s z) = negb (z =? 0)) as Hsign.
    { intros z. unfold py_bool. destruct s; cbn [cond_Zopp]; [ | reflexivity].
      destruct (Z.eqb_spec z 0), (Z.eqb_spec (- z) 0); try reflexivity; lia. }
    rewrite Hsign. clear Hsign.
    unfold F64.ltb, SFltb, F64.c0_5, SFabs, SFcompare.
    destruct (Z.leb_spec 0 e) as [He | He].
    + assert (0 < 2 ^ e) by (apply Z.pow_pos_nonneg; lia).
      destruct (Z.eqb_spec (Z.pos m * 2 ^ e) 0) as [H0 | _]; [nia | ].
      destruct (Z.compare_spec (-53) e); [lia | reflexivity | lia].
    + pose proof (round_half_even_zero_iff (Z.pos m) (- e) ltac:(lia) ltac:(lia))
        as [Hz1 Hz2].
      change (2 ^ 53) with (2 * 2 ^ 52) in Hv.
      destruct (Z.compare_spec (-53) e) as [Heq | Hlt | Hgt].
      * subst e. change (- -53) with 53 in Hz1, Hz2. change (- -53) with 53.
        change (2 ^ 53) with (2 * 2 ^ 52) in Hz1, Hz2.
        change (Pos.compare_cont Eq 4503599627370496 m)
          with (Pos.compare 4503599627370496 m).
        destruct (Pos.compare_spec 4503599627370496 m) as [Hc | Hc | Hc].
        -- assert (Z.pos m = 2 ^ 52) as Hm by (subst m; reflexivity).
           destruct (Z.eqb_spec (round_half_even (Z.pos m) 53) 0) as [ | Hn];
             [reflexivity | ].
           exfalso. apply Hn, Hz2. rewrite Hm. apply Z.le_refl.
        -- apply Pos2Z.pos_lt_pos in Hc.
           change (Z.pos 4503599627370496) with (2 ^ 52) in Hc.
           destruct (Z.eqb_spec (round_half_even (Z.pos m) 53) 0) as [Hn | ];
             [ | reflexivity].
           exfalso. apply Hz1 in Hn. revert Hn Hc.
           generalize (2 ^ 52). intros; lia.
        -- apply Pos2Z.pos_lt_pos in Hc.
           change (Z.pos 4503599627370496) with (2 ^ 52) in Hc.
           exfalso. revert Hv Hc. generalize (2 ^ 52). intros; lia.
      * assert (2 ^ (- e) <= 2 ^ 52) as Hp by (apply Z.pow_le_mono_r; lia).
        destruct (Z.eqb_spec (round_half_even (Z.pos m) (- e)) 0) as [Hn | ];
          [ | reflexivity].
        exfalso. apply Hz1 in Hn. revert Hv Hp Hn.
        generalize (2 ^ 52) (2 ^ (- e)). intros; lia.
      * assert (2 * (2 * 2 ^ 52) <= 2 ^ (- e)) as Hp.
        { change (2 * (2 * 2 ^ 52)) with (2 ^ 54). apply Z.pow_le_mono_r; lia. }
        destruct (Z.eqb_spec (round_half_even (Z.pos m) (- e)) 0) as [ | Hn];
          [reflexivity | ].
        exfalso. apply Hn, Hz2. revert Hv Hp.
        generalize (2 ^ 52) (2 ^ (- e)). intros; lia.
Qed.

(** X2. On a full message whose first, second and fourth values are
    finite, each boolean field of the decision is true exactly when the
    value received is more than 0.5 away from zero: 0.5 itself and -0.5
    read as false, -1.0 as true. *)
Theorem receive_data_threshold (c : connection) (v0 v1 v2 v3 : float)
    (rest : list recv_result) :
  F64.valid v0 = true -> F64.valid v1 = true ->
  F64.valid v2 = true -> F64.valid v3 = true ->
  F64.is_finite v0 = true -> F64.is_finite v1 = true ->
  F64.is_finite v3 = true ->
  recv_script c = RecvData (inbound_bytes v0 v1 v2 v3) :: rest ->
  receive_data c =
    (Ok {| egoCarStop := F64.ltb F64.c0_5 (SFabs v0);
           FCW_Activate := F64.ltb F64.c0_5 (SFabs v1);
           Deceleration := v2;
           AEB_Status := F64.ltb F64.c0_5 (SFabs v3) |},
     with_recv_script c rest).
Proof.
  intros H0 H1 H2 H3 F0 F1 F3 Hc.
  destruct (py_bool_round v0 H0 F0) as (n0 & R0 & <-).
  destruct (py_bool_round v1 H1 F1) as (n1 & R1 & <-).
  destruct (py_bool_round v3 H3 F3) as (n3 & R3 & <-).
  unfold receive_data, try_except_Exception, bind.
  rewrite (receive_loop_message c v0 v1 v2 v3 rest H0 H1 H2 H3 Hc).
  unfold lift, build_result. cbn [index nth_error].
  rewrite R0, R1, R3. reflexivity.
Qed.

Lemma receive_data_threshold_witness :
  receive_data
    (arriving [RecvData (inbound_bytes F64.c0_5 F64.m1_0 F64.c0_3 F64.c0_6)])
  = (Ok {| egoCarStop := false; FCW_Activate := true;
           Deceleration := F64.c0_3; AEB_Status := true |},
     arriving []).
Proof.
  apply (receive_data_threshold
           (arriving [RecvData (inbound_bytes F64.c0_5 F64.m1_0 F64.c0_3 F64.c0_6)])
           F64.c0_5 F64.m1_0 F64.c0_3 F64.c0_6 []);
    reflexivity.
Defined.

(** X3. A full message with a NaN or an infinity in its first, second or
    fourth value is used up and decodes to the default decision: its
    deceleration and its other flags are dropped with it. *)
Theorem receive_data_non_finite (c : connection) (v0 v1 v2 v3 : float)
    (rest : list recv_result) :
  F64.valid v0 = true -> F64.valid v1 = true ->
  F64.valid v2 = true -> F64.valid v3 = true ->
  F64.is_finite v0 && F64.is_finite v1 && F64.is_finite v3 = false ->
  recv_script c = RecvData (inbound_bytes v0 v1 v2 v3) :: rest ->
  receive_data c = (Ok default_decision, with_recv_script c rest).
Proof.
  intros H0 H1 H2 H3 Hnf Hc.
  unfold receive_data, try_except_Exception, bind.
  rewrite (receive_loop_message c v0 v1 v2 v3 rest H0 H1 H2 H3 Hc).
  unfold lift.
  destruct (build_result [v0; v1; v2; v3]) as [d | e] eqn:Hb.
  - exfalso. unfold build_result in Hb. cbn [index nth_error] in Hb.
    destruct v0 as [ | | | ], v1 as [ | | | ], v3 as [ | | | ];
      cbn in Hnf, Hb; discriminate.
  - rewrite (build_result_exn _ _ Hb). reflexivity.
Qed.

Lemma receive_data_non_finite_witness :
  receive_data
    (arriving [RecvData (inbound_bytes F64.one F64.zero F64.c0_3 S754_nan)])
  = (Ok default_decision, arriving []).
Proof.
  apply (receive_data_non_finite
           (arriving [RecvData (inbound_bytes F64.one F64.zero F64.c0_3 S754_nan)])
           F64.one F64.zero F64.c0_3 S754_nan []);
    reflexivity.
Defined.

(** ** What receive_data takes from the stream *)

Lemma receive_one_effect (c c' : connection) (r : result (option float + unit)) :
  try_except_timeout receive_one c = (r, c') ->
  send_script c' = send_script c /\ wire_out c' = wire_out c /\
  (pending (recv_script c') <= pending (recv_script c))%nat /\
  (pending (recv_script c) <= pending (recv_script c') + 8)%nat /\
  (forall v, r = Ok (inl (Some v)) ->
             pending (recv_script c) = (pending (recv_script c') + 8)%nat).
Proof.
  destruct (recv_script c) as [ | [data | | ] rest] eqn:Hc.
  - unfold try_except_timeout, receive_one, bind, recv. rewrite Hc.
    intros H. injection H as <- <-. rewrite Hc.
    repeat split; try lia. discriminate.
  - rewrite (receive_one_data c data rest Hc).
    pose proof (length_skipn 8 data) as Hs.
    set (later := skipn 8 data) in *. cbn [pending].
    destruct (Nat.ltb_spec (length data) 8) as [Hlt | Hge].
    + intros H. injection H as <- <-. cbn [with_recv_script recv_script].
      repeat split; try lia. discriminate.
    + destruct (Nat.leb_spec (length data) 8) as [Hle | Hgt];
        intros H; injection H as <- <-.
      * cbn [with_recv_script send_script recv_script wire_out pending].
        repeat split; intros; lia.
      * cbn [with_recv_script send_script recv_script wire_out pending].
        repeat split; intros; lia.
  - unfold try_except_timeout, receive_one, bind, recv. rewrite Hc.
    intros H. injection H as <- <-.
    cbn [with_recv_script send_script recv_script wire_out pending].
    repeat split; try lia. discriminate.
  - unfold try_except_timeout, receive_one, bind, recv. rewrite Hc.
    intros H. injection H as <- <-.
    cbn [with_recv_script send_script recv_script wire_out pending].
    repeat split; try lia. discriminate.
Qed.

Lemma receive_loop_effect (n : nat) (values : list float) (c c' : connection)
    (r : result loop_exit) :
  receive_loop n values c = (r, c') ->
  send_script c' = send_script c /\ wire_out c' = wire_out c /\
  (pending (recv_script c') <= pending (recv_script c))%nat /\
  (pending (recv_script c) <= pending (recv_script c') + 8 * n)%nat.
Proof.
  revert values c. induction n as [ | n IH]; intros values c.
  - cbn. intros H. injection H as <- <-. repeat split; lia.
  - cbn [receive_loop]. unfold bind at 1.
    destruct (try_except_timeout receive_one c) as [r1 c1] eqn:H1.
    destruct (receive_one_effect _ _ _ H1) as (Hs & Hw & Hlo & Hhi & _).
    destruct r1 as [[[v | ] | u] | e].
    + intros H. destruct (IH _ _ H) as (Hs' & Hw' & Hlo' & Hhi').
      repeat split; try congruence; lia.
    + intros H. destruct (IH _ _ H) as (Hs' & Hw' & Hlo' & Hhi').
      repeat split; try congruence; lia.
    + unfold ret. intros H. injection H as <- <-. repeat split; try assumption; lia.
    + intros H. injection H as <- <-. repeat split; try assumption; lia.
Qed.

(** Reads that all give a value take eight bytes each. *)
Lemma receive_loop_exact (n : nat) (values values' : list float)
    (c c' : connection) :
  receive_loop n values c = (Ok (Fallthrough values'), c') ->
  length values' = (length values + n)%nat ->
  pending (recv_script c) = (pending (recv_script c') + 8 * n)%nat.
Proof.
  revert values c. induction n as [ | n IH]; intros values c.
  - cbn. intros H _. injection H as _ <-. lia.
  - cbn [receive_loop]. unfold bind at 1.
    destruct (try_except_timeout receive_one c) as [r1 c1] eqn:H1.
    destruct (receive_one_effect _ _ _ H1) as (_ & _ & _ & _ & Hex).
    destruct r1 as [[[v | ] | u] | e]; try discriminate.
    + intros H Hlen. specialize (Hex v eq_refl).
      rewrite (IH _ _ H) in Hex; [lia | ].
      rewrite length_app. cbn. lia.
    + intros H Hlen. apply receive_loop_length in H. lia.
Qed.

Lemma build_result_length (values : list float) (d : decision) :
  build_result values = Ok d -> (4 <= length values)%nat.
Proof.
  intros H.
  destruct (Nat.le_gt_cases 4 (length values)) as [Hle | Hlt]; [exact Hle | ].
  destruct (build_result_short values Hlt) as [e He]. congruence.
Qed.

(** X4. [receive_data] does not write to the socket and takes at most 32
    bytes from the stream, whatever it returns. *)
Theorem receive_data_effect (c c' : connection) (r : result decision) :
  receive_data c = (r, c') ->
  send_script c' = send_script c /\ wire_out c' = wire_out c /\
  (pending (recv_script c') <= pending (recv_script c))%nat /\
  (pending (recv_script c) <= pending (recv_script c') + 32)%nat.
Proof.
  unfold receive_data, try_except_Exception, bind.
  destruct (receive_loop 4 [] c) as [r1 c1] eqn:H1.
  pose proof (receive_loop_effect _ _ _ _ _ H1) as He.
  change (8 * 4)%nat with 32%nat in He.
  destruct r1 as [[values | d] | e].
  - unfold lift. destruct (build_result values) as [d | e].
    + intros H. injection H as _ <-. exact He.
    + destruct (is_Exception e); intros H; injection H as _ <-; exact He.
  - unfold ret. intros H. injection H as _ <-. exact He.
  - destruct (is_Exception e); intros H; injection H as _ <-; exact He.
Qed.

Lemma receive_data_effect_witness :
  (pending (recv_script late_arrival)
   <= pending (recv_script (snd (receive_data late_arrival))) + 32)%nat.
Proof.
  apply (receive_data_effect late_arrival (snd (receive_data late_arrival))
           (fst (receive_data late_arrival))).
  vm_compute. reflexivity.
Defined.

(** X5. A decision other than the default is only ever built from four
    full reads: none of the four calls of [recv] timed out, failed or was
    short, and exactly 32 bytes were taken from the stream. *)
Theorem receive_data_decoded (c c' : connection) (d : decision) :
  receive_data c = (Ok d, c') ->
  d <> default_decision ->
  recv_fault 4 (recv_script c) = false /\
  recv_short 4 (recv_script c) = false /\
  pending (recv_script c) = (pending (recv_script c') + 32)%nat.
Proof.
  intros H Hd. split; [ | split].
  - destruct (recv_fault 4 (recv_script c)) eqn:Hf; [ | reflexivity].
    destruct (receive_data_fault c Hf) as (c1 & H1). congruence.
  - destruct (recv_short 4 (recv_script c)) eqn:Hs; [ | reflexivity].
    destruct (receive_data_short_read c Hs) as (c1 & H1). congruence.
  - revert H. unfold receive_data, try_except_Exception, bind.
    destruct (receive_loop 4 [] c) as [[[values | d1] | e] c1] eqn:H1.
    + unfold lift. destruct (build_result values) as [d1 | e] eqn:Hb.
      * intros H. injection H as _ <-.
        pose proof (build_result_length _ _ Hb) as Hlen.
        pose proof (receive_loop_length _ _ _ _ _ H1) as Hmax. cbn in Hmax.
        apply (receive_loop_exact _ _ _ _ _ H1). cbn. lia.
      * rewrite (build_result_exn _ _ Hb). unfold ret.
        intros H. injection H as <- _. congruence.
    + apply receive_loop_returned in H1. subst d1. unfold ret.
      intros H. injection H as <- _. congruence.
    + rewrite (receive_loop_exn _ _ _ _ _ H1). unfold ret.
      intros H. injection H as <- _. congruence.
Qed.

Lemma receive_data_decoded_witness :
  recv_fault 4 [RecvData (inbound_bytes F64.one F64.zero F64.c0_3 F64.one)]
  = false /\
  recv_short 4 [RecvData (inbound_bytes F64.one F64.zero F64.c0_3 F64.one)]
  = false /\
  pending [RecvData (inbound_bytes F64.one F64.zero F64.c0_3 F64.one)]
  = (pending [] + 32)%nat.
Proof.
  apply (receive_data_decoded
           (arriving [RecvData (inbound_bytes F64.one F64.zero F64.c0_3 F64.one)])
           (arriving [])
           {| egoCarStop := true; FCW_Activate := false;
              Deceleration := F64.c0_3; AEB_Status := true |}).
  - vm_compute. reflexivity.
  - discriminate.
Defined.

(** ** What send_data leaves on the wire *)

Lemma receive_data_keeps_send_side (c c' : connection) (r : result decision) :
  receive_data c = (r, c') ->
  send_script c' = send_script c /\ wire_out c' = wire_out c.
Proof.
  unfold receive_data, try_except_Exception, bind.
  destruct (receive_loop 4 [] c) as [r1 c1] eqn:H1.
  destruct (receive_loop_effect _ _ _ _ _ H1) as (Hs & Hw & _).
  destruct r1 as [[values | d] | e].
  - unfold lift. destruct (build_result values) as [d | e].
    + intros H. injection H as _ <-. split; assumption.
    + destruct (is_Exception e); intros H; injection H as _ <-; split; assumption.
  - unfold ret. intros H. injection H as _ <-. split; assumption.
  - destruct (is_Exception e); intros H; injection H as _ <-; split; assumption.
Qed.

(** X6. [send_data] never reads.  When none of its three [sendall] calls
    fails it returns, and the wire holds the three 8-byte fields in order.
    When call [j] (0, 1 or 2) is the first to fail it raises that error,
    and the wire holds the [j] whole fields sent before, followed by the
    bytes that the failing call let out, and nothing of the later
    fields. *)
Theorem send_data_effect (data : telemetry) (c c' : connection)
    (r : result unit) :
  send_data data c = (r, c') ->
  let fields := map Struct.pack_d
                  [MIO_Distance data; MIO_Velocity data; Ego_Velocity data] in
  recv_script c' = recv_script c /\
  (r = Ok tt <-> sends_ok 3 c = true) /\
  match first_failure 3 (send_script c) with
  | None => r = Ok tt /\ wire_out c' = wire_out c ++ concat fields
  | Some (j, sent) =>
      r = Raise OSError /\ (j < 3)%nat /\
      wire_out c' =
        wire_out c ++ concat (firstn j fields) ++ firstn sent (nth j fields [])
  end.
Proof.
  intros H fields. revert H. unfold fields. clear fields.
  set (f0 := Struct.pack_d (MIO_Distance data)).
  set (f1 := Struct.pack_d (MIO_Velocity data)).
  set (f2 := Struct.pack_d (Ego_Velocity data)).
  unfold send_data, try_except_Exception, send_values, bind, sendall, sends_ok.
  cbn [map]. fold f0 f1 f2.
  destruct (send_script c) as [ | [ | n0] [ | [ | n1] [ | [ | n2] rest]]];
    cbn [fold_left fold_right map send_script recv_script wire_out is_Exception
         first_failure firstn forallb is_SendOk andb nth concat app];
    unfold raise, ret; cbn [is_Exception];
    intros H; injection H as <- <-; cbn [recv_script wire_out];
    (split; [reflexivity | ]);
    (split; [split; intros; first [reflexivity | discriminate] | ]);
    rewrite ?app_nil_r, <- ?app_assoc;
    repeat (split; try reflexivity; try lia).
Qed.

Lemma send_data_effect_witness :
  fst (send_data sample_telemetry second_send_breaks) = Raise OSError /\
  wire_out (snd (send_data sample_telemetry second_send_breaks))
  = Struct.pack_d F64.c2_5 ++ firstn 3 (Struct.pack_d F64.c0_4).
Proof.
  pose proof (send_data_effect sample_telemetry second_send_breaks
                (snd (send_data sample_telemetry second_send_breaks))
                (fst (send_data sample_telemetry second_send_breaks))
                eq_refl) as (_ & _ & H).
  cbn [first_failure second_send_breaks send_script] in H.
  destruct H as (Hr & _ & Hw). split; [exact Hr | ].
  rewrite Hw. vm_compute. reflexivity.
Defined.

(** ** More on one pass of the loop *)

Lemma tick_inv (w : world_obs) (st st' : loop_state) (out : tick_output) :
  tick w st = Continue st' out ->
  quit_event w = false /\ world_fault w = None /\
  exists d c',
    exchange w st = Ok (d, c') /\
    st' = {| sim_time := F64.add (sim_time st) F64.c0_05;
             collision := if F64.ltb (distance w) F64.c2_5 && negb (collision st)
                          then true else collision st;
             sim_data := d; conn := c' |} /\
    out = {| cyclist_ctrl := control_cyclist (F64.add (sim_time st) F64.c0_05);
             ctrl := control_ego (F64.add (sim_time st) F64.c0_05) d (collision st);
             ttc := calculate_ttc (distance w)
                      (F64.sub (ego_speed w) (cyclist_speed w)) |}.
Proof.
  unfold tick. destruct (quit_event w); [discriminate | ].
  destruct (world_fault w); [discriminate | ].
  destruct (exchange w st) as [[d c'] | e]; [ | discriminate].
  intros H. injection H as <- <-. repeat split. eauto.
Qed.

(** X7. On a pass whose send fails nothing is read: the decision is kept
    and the stream of arriving bytes is left as it was, so a reply already
    waiting there is still waiting on the next pass. *)
Theorem tick_send_failure_skips_receive (w : world_obs) (st st' : loop_state)
    (out : tick_output) (c : connection) :
  conn st = Some c -> sends_ok 3 c = false ->
  tick w st = Continue st' out ->
  sim_data st' = sim_data st /\
  exists c', conn st' = Some c' /\ recv_script c' = recv_script c.
Proof.
  intros Hc Hs Ht.
  destruct (tick_inv _ _ _ _ Ht) as (_ & _ & d & c1 & He & -> & _).
  cbn [sim_data conn].
  revert He. unfold exchange. rewrite Hc. unfold bind.
  destruct (send_data_fail {| MIO_Distance := distance w;
                              MIO_Velocity := cyclist_speed w;
                              Ego_Velocity := ego_speed w |} c Hs)
    as (e & c' & H).
  rewrite H, (send_data_exn _ _ _ _ H).
  intros He. injection He as <- <-.
  split; [reflexivity | ]. exists c'. split; [reflexivity | ].
  revert H. unfold send_data, try_except_Exception, send_values, bind, sendall.
  destruct (send_script c) as [ | [ | n0] [ | [ | n1] [ | [ | n2] rest]]];
    cbn; unfold raise; intros H; injection H as _ <-; reflexivity.
Qed.

Lemma tick_send_failure_skips_receive_witness :
  exists st' out,
    tick far_apart braking_then_broken = Continue st' out /\
    sim_data st' = aeb_decision /\
    exists c', conn st' = Some c' /\ recv_script c' = [].
Proof.
  assert (exists st' out, tick far_apart braking_then_broken = Continue st' out)
    as (st' & out & Ht) by (do 2 eexists; vm_compute; reflexivity).
  exists st', out. split; [exact Ht | ].
  apply (tick_send_failure_skips_receive far_apart braking_then_broken st' out
           {| send_script := [SendFail 0]; recv_script := [];
              wire_out := [] |} eq_refl eq_refl Ht).
Defined.

(** X8. On a pass whose sends succeed the loop writes 24 bytes: the
    distance, the speed of the cyclist and the speed of the ego, in that
    order, each as 8 bytes; receiving the reply adds nothing to them. *)
Theorem tick_sends_telemetry (w : world_obs) (st st' : loop_state)
    (out : tick_output) (c : connection) :
  conn st = Some c -> sends_ok 3 c = true ->
  tick w st = Continue st' out ->
  exists c',
    conn st' = Some c' /\
    wire_out c' =
      wire_out c ++ Struct.pack_d (distance w)
      ++ Struct.pack_d (cyclist_speed w) ++ Struct.pack_d (ego_speed w).
Proof.
  intros Hc Hs Ht.
  destruct (tick_inv _ _ _ _ Ht) as (_ & _ & d & c1 & He & -> & _).
  cbn [conn]. revert He. unfold exchange. rewrite Hc. unfold bind.
  rewrite (send_data_ok _ _ Hs). cbn [MIO_Distance MIO_Velocity Ego_Velocity].
  match goal with
  | |- context [receive_data ?c0] =>
      destruct (receive_data c0) as [r c2] eqn:Hr;
      destruct (receive_data_keeps_send_side _ _ _ Hr) as [_ Hw]
  end.
  cbn [wire_out] in Hw.
  destruct r as [d' | e]; [ | destruct (is_Exception e)];
    intros He; try discriminate; injection He as _ <-;
    eexists; (split; [reflexivity | exact Hw]).
Qed.

Lemma tick_sends_telemetry_witness :
  exists st' out c',
    tick far_apart latched = Continue st' out /\
    conn st' = Some c' /\
    wire_out c' =
      [] ++ Struct.pack_d (F64.of_Z 40) ++ Struct.pack_d F64.zero
      ++ Struct.pack_d (F64.of_Z 5).
Proof.
  assert (exists st' out, tick far_apart latched = Continue st' out)
    as (st' & out & Ht) by (do 2 eexists; vm_compute; reflexivity).
  destruct (tick_sends_telemetry far_apart latched st' out link_up
              eq_refl eq_refl Ht) as (c' & Hc & Hw).
  exists st', out, c'. split; [exact Ht | ]. split; [exact Hc | exact Hw].
Defined.

(** X9. Without a connection the loop never changes the decision: over a
    whole run it stays what it was at the start (the default, from the
    initial state), and no connection appears. *)
Theorem run_without_connection (ws : list world_obs) (st : loop_state) :
  conn st = None ->
  Forall (fun p => sim_data (snd p) = sim_data st /\ conn (snd p) = None)
         (run_loop ws st).
Proof.
  revert st. induction ws as [ | w ws IH]; intros st Hc; cbn [run_loop].
  - constructor.
  - destruct (tick w st) as [ | e | st' out] eqn:Ht; try constructor.
    + destruct (tick_inv _ _ _ _ Ht) as (_ & _ & d & c' & He & -> & _).
      unfold exchange in He. rewrite Hc in He. injection He as <- <-.
      split; reflexivity.
    + destruct (tick_inv _ _ _ _ Ht) as (_ & _ & d & c' & He & -> & _).
      unfold exchange in He. rewrite Hc in He. injection He as <- <-.
      match goal with
      | |- Forall _ (run_loop ws ?s) => exact (IH s eq_refl)
      end.
Qed.

Lemma run_without_connection_witness :
  length (run_loop [far_apart; close_by; far_apart] (initial_state None))
  = 3%nat /\
  Forall (fun p => sim_data (snd p) = default_decision /\ conn (snd p) = None)
         (run_loop [far_apart; close_by; far_apart] (initial_state None)).
Proof.
  split; [vm_compute; reflexivity | ].
  apply (run_without_connection [far_apart; close_by; far_apart]
           (initial_state None)).
  reflexivity.
Defined.

(** X10. The loop makes one pass for each observation up to the first
    quit event or simulator failure, and none after it: nothing the link
    does (a failed send, a timeout, a short or malformed message, a closed
    peer) ends the loop. *)
Theorem run_loop_length (ws : list world_obs) (st : loop_state) :
  length (run_loop ws st) = live_prefix ws.
Proof.
  revert st. induction ws as [ | w ws IH]; intros st; cbn [run_loop live_prefix].
  - reflexivity.
  - destruct (quit_event w) eqn:Hq.
    + unfold tick. rewrite Hq. reflexivity.
    + destruct (world_fault w) as [e | ] eqn:Hw.
      * unfold tick. rewrite Hq, Hw. reflexivity.
      * destruct (tick_continues w st Hq Hw) as (st' & out & ->).
        cbn [length]. rewrite IH. reflexivity.
Qed.

(** X11. With the sends succeeding, a receive that times out or fails
    while no collision is latched and the clock is past 2.5 makes the ego
    accelerate: throttle 0.5, brake 0, steer 0, whatever decision the
    previous pass had, an active AEB included. *)
Theorem tick_silent_link_releases (w : world_obs) (st st' : loop_state)
    (out : tick_output) (c : connection) :
  conn st = Some c -> sends_ok 3 c = true ->
  recv_fault 4 (recv_script c) = true ->
  collision st = false ->
  F64.gtb (F64.add (sim_time st) F64.c0_05) F64.c2_5 = true ->
  tick w st = Continue st' out ->
  throttle (ctrl out) = F64.c0_5 /\ brake (ctrl out) = F64.zero /\
  steer (ctrl out) = F64.zero.
Proof.
  intros Hc Hs Hf Hcol Ht Htick.
  destruct (tick_inv _ _ _ _ Htick) as (_ & _ & d & c1 & He & _ & ->).
  destruct (exchange_recv_failure w st c Hc Hs Hf) as (c2 & He2).
  rewrite He2 in He. injection He as <- _.
  cbn [ctrl]. unfold control_ego. rewrite Hcol, Ht. cbn. repeat split.
Qed.

Lemma tick_silent_link_releases_witness :
  exists st' out,
    tick far_apart braking_then_silence = Continue st' out /\
    AEB_Status (sim_data braking_then_silence) = true /\
    throttle (ctrl out) = F64.c0_5 /\ brake (ctrl out) = F64.zero /\
    steer (ctrl out) = F64.zero.
Proof.
  assert (exists st' out, tick far_apart braking_then_silence = Continue st' out)
    as (st' & out & Ht) by (do 2 eexists; vm_compute; reflexivity).
  exists st', out. split; [exact Ht | ]. split; [reflexivity | ].
  apply (tick_silent_link_releases far_apart braking_then_silence st' out
           {| send_script := []; recv_script := [RecvTimeout];
              wire_out := [] |} eq_refl eq_refl eq_refl eq_refl eq_refl Ht).
Defined.

(** ** The clock of the loop *)

Lemma sim_time_after_shift (n : nat) (t : float) :
  sim_time_after n (F64.add t F64.c0_05) = sim_time_after (S n) t.
Proof.
  induction n as [ | n IH]; [reflexivity | ].
  cbn [sim_time_after] in *. rewrite IH. reflexivity.
Qed.

(** The pass number [k + 1] of a run works at the clock of [k + 1]
    additions. *)
Lemma run_loop_nth (ws : list world_obs) (st st' : loop_state) (k : nat)
    (out : tick_output) :
  nth_error (run_loop ws st) k = Some (out, st') ->
  sim_time st' = sim_time_after (S k) (sim_time st) /\
  cyclist_ctrl out = control_cyclist (sim_time st') /\
  exists d b, ctrl out = control_ego (sim_time st') d b.
Proof.
  revert st k. induction ws as [ | w ws IH]; intros st k; cbn [run_loop].
  - destruct k; discriminate.
  - destruct (tick w st) as [ | e | st0 out0] eqn:Ht;
      try (destruct k; discriminate).
    destruct (tick_inv _ _ _ _ Ht) as (_ & _ & d & c' & _ & Hst & Hout).
    destruct k as [ | k]; cbn [nth_error].
    + intros H. injection H as <- <-. subst st0 out0.
      cbn [sim_time cyclist_ctrl ctrl sim_time_after].
      split; [reflexivity | ]. split; [reflexivity | eauto].
    + intros H. destruct (IH _ _ H) as (Htime & Hrest).
      split; [ | exact Hrest].
      rewrite Htime. subst st0. cbn [sim_time].
      apply (sim_time_after_shift (S k)).
Qed.

Lemma control_ego_hold (t : float) (d : decision) (b : bool) :
  F64.gtb t F64.c2_5 = false -> control_ego t d b = full_brake.
Proof.
  intros Ht. unfold control_ego. rewrite Ht.
  destruct (AEB_Status d || egoCarStop d || b); reflexivity.
Qed.

Lemma clock_check_spec (P : float -> bool) (n : nat) (t : float) :
  clock_check P n t = true ->
  forall j, (j < n)%nat -> P (sim_time_after (S j) t) = true.
Proof.
  revert t. induction n as [ | n IH]; intros t H j Hj; [lia | ].
  cbn [clock_check] in H. apply andb_true_iff in H as [H0 Hrest].
  destruct j as [ | j]; [exact H0 | ].
  rewrite <- sim_time_after_shift. apply IH; [exact Hrest | lia].
Qed.

Lemma sim_time_after_add (a b : nat) (t : float) :
  sim_time_after (a + b) t = sim_time_after b (sim_time_after a t).
Proof.
  induction b as [ | b IH].
  - rewrite Nat.add_0_r. reflexivity.
  - rewrite Nat.add_succ_r. cbn [sim_time_after]. rewrite IH. reflexivity.
Qed.

(** The clock against a threshold: at or below it for the first [n]
    passes, above it from then to the horizon. *)
Lemma clock_crossing (limit : float) (n k : nat) :
  clock_check (fun t => negb (F64.gtb t limit)) n F64.zero = true ->
  clock_check (fun t => F64.gtb t limit) (horizon - n)
              (sim_time_after n F64.zero) = true ->
  ((k < n)%nat ->
   F64.gtb (sim_time_after (S k) F64.zero) limit = false) /\
  ((n <= k < horizon)%nat ->
   F64.gtb (sim_time_after (S k) F64.zero) limit = true).
Proof.
  intros Hlo Hhi. split; intros Hk.
  - apply negb_true_iff. apply (clock_check_spec _ _ _ Hlo). exact Hk.
  - pose proof (clock_check_spec _ _ _ Hhi (k - n) ltac:(lia)) as H.
    cbv beta in H.
    replace (S k) with (n + S (k - n))%nat by lia.
    rewrite sim_time_after_add. exact H.
Qed.

Lemma clock_engagement (k : nat) :
  ((k < 50)%nat ->
   F64.gtb (sim_time_after (S k) F64.zero) F64.c2_5 = false) /\
  ((50 <= k < horizon)%nat ->
   F64.gtb (sim_time_after (S k) F64.zero) F64.c2_5 = true).
Proof. apply clock_crossing; vm_compute; reflexivity. Qed.

Lemma clock_start (k : nat) :
  ((k < 39)%nat ->
   F64.gtb (sim_time_after (S k) F64.zero) F64.c2_0 = false) /\
  ((39 <= k < horizon)%nat ->
   F64.gtb (sim_time_after (S k) F64.zero) F64.c2_0 = true).
Proof. apply clock_crossing; vm_compute; reflexivity. Qed.

(** X12. In every run from the initial state, whatever the observations
    and whatever the link delivers, the ego is held at zero throttle and
    full brake on each of the first 50 passes; from pass 51 on (checked
    up to ten minutes of simulated time) the clock is past 2.5. *)
Theorem pre_engagement_hold (c : option connection) (ws : list world_obs)
    (k : nat) (out : tick_output) (st' : loop_state) :
  nth_error (run_loop ws (initial_state c)) k = Some (out, st') ->
  ((k < 50)%nat -> is_full_brake (ctrl out)) /\
  ((50 <= k < horizon)%nat -> F64.gtb (sim_time st') F64.c2_5 = true).
Proof.
  intros H. destruct (run_loop_nth _ _ _ _ _ H) as (Ht & _ & d & b & Hc).
  cbn [initial_state sim_time] in Ht. split; intros Hk.
  - pose proof (proj1 (clock_engagement k) Hk) as Hall.
    rewrite <- Ht in Hall.
    rewrite Hc, (control_ego_hold _ d b Hall). repeat split.
  - rewrite Ht. exact (proj2 (clock_engagement k) Hk).
Qed.

Lemma pre_engagement_hold_witness :
  exists out st',
    nth_error (run_loop [far_apart; far_apart; far_apart]
                 (initial_state (Some link_up))) 2
    = Some (out, st') /\
    is_full_brake (ctrl out).
Proof.
  assert (exists out st',
             nth_error (run_loop [far_apart; far_apart; far_apart]
                          (initial_state (Some link_up))) 2
             = Some (out, st'))
    as (out & st' & H) by (do 2 eexists; vm_compute; reflexivity).
  exists out, st'. split; [exact H | ].
  apply (proj1 (pre_engagement_hold (Some link_up)
                  [far_apart; far_apart; far_apart] 2 out st' H)).
  lia.
Defined.

(** X13. In every run from the initial state the cyclist is held (zero
    throttle, brake 1) on each of the first 39 passes, and from pass 40 on
    (checked up to ten minutes of simulated time) it rides with zero steer,
    no brake and, as throttle, the 32-bit value of 0.4, which is
    0.4000000059604645: forty additions of 0.05 already give a clock above
    2.0.  Nothing received or measured changes this. *)
Theorem cyclist_timeline (c : option connection) (ws : list world_obs)
    (k : nat) (out : tick_output) (st' : loop_state) :
  nth_error (run_loop ws (initial_state c)) k = Some (out, st') ->
  ((k < 39)%nat -> cyclist_ctrl out = cyclist_waits) /\
  ((39 <= k < horizon)%nat ->
   cyclist_ctrl out = cyclist_rides /\
   throttle (cyclist_ctrl out) = S754_finite false 7205759511166976 (-54) /\
   throttle (cyclist_ctrl out) <> F64.c0_4).
Proof.
  intros H. destruct (run_loop_nth _ _ _ _ _ H) as (Ht & Hc & _).
  cbn [initial_state sim_time] in Ht. rewrite Hc, Ht.
  unfold control_cyclist. split; intros Hk.
  - rewrite (proj1 (clock_start k) Hk). vm_compute. reflexivity.
  - rewrite (proj2 (clock_start k) Hk).
    split; [vm_compute; reflexivity | ].
    split; [vm_compute; reflexivity | vm_compute; discriminate].
Qed.

Lemma cyclist_timeline_witness :
  exists out out' st' st'',
    nth_error (run_loop (repeat far_apart 40) (initial_state None)) 38
    = Some (out, st') /\
    nth_error (run_loop (repeat far_apart 40) (initial_state None)) 39
    = Some (out', st'') /\
    cyclist_ctrl out = cyclist_waits /\
    cyclist_ctrl out' = cyclist_rides /\
    throttle (cyclist_ctrl out') = S754_finite false 7205759511166976 (-54).
Proof.
  assert (exists out st',
             nth_error (run_loop (repeat far_apart 40) (initial_state None)) 38
             = Some (out, st'))
    as (out & st' & H) by (do 2 eexists; vm_compute; reflexivity).
  assert (exists out st',
             nth_error (run_loop (repeat far_apart 40) (initial_state None)) 39
             = Some (out, st'))
    as (out' & st'' & H') by (do 2 eexists; vm_compute; reflexivity).
  exists out, out', st', st''.
  split; [exact H | ]. split; [exact H' | ].
  split.
  - apply (proj1 (cyclist_timeline None (repeat far_apart 40) 38 out st' H)).
    lia.
  - assert (39 <= 39 < horizon)%nat as Hk by (unfold horizon; lia).
    destruct (proj2 (cyclist_timeline None (repeat far_apart 40) 39 out' st''
                       H') Hk) as (Hr & Hv & _).
    split; [exact Hr | exact Hv].
Defined.

(** ** What control_ego does not look at or touch *)

(** X14. The forward-collision warning has no part in the command: two
    decisions that differ only in [FCW_Activate] give the same command.
    And the command never steers, never sets the hand brake, the reverse
    gear or a manual gear. *)
Theorem control_ego_ignores_fcw (sim_time : float) (sim_data : decision)
    (collision fcw : bool) :
  control_ego sim_time (with_FCW fcw sim_data) collision
  = control_ego sim_time sim_data collision /\
  steer (control_ego sim_time sim_data collision) = F64.zero /\
  hand_brake (control_ego sim_time sim_data collision) = false /\
  reverse (control_ego sim_time sim_data collision) = false /\
  manual_gear_shift (control_ego sim_time sim_data collision) = false /\
  gear (control_ego sim_time sim_data collision) = 0.
Proof.
  unfold control_ego, with_FCW. cbn [AEB_Status egoCarStop Deceleration].
  destruct (AEB_Status sim_data || egoCarStop sim_data || collision);
    [repeat split | ].
  destruct (F64.gtb sim_time F64.c2_5); repeat split.
Qed.

(** ** The history of the plotter *)

Lemma deque_append_length {A : Type} (n : nat) (x : A) (q : list A) :
  length (deque_append n x q) = Nat.min (length q + 1) n.
Proof.
  unfold deque_append. rewrite length_skipn, length_app. cbn [length]. lia.
Qed.

Lemma lastn_length {A : Type} (n : nat) (l : list A) :
  length (lastn n l) = Nat.min (length l) n.
Proof. unfold lastn. rewrite length_skipn. lia. Qed.

Lemma skipn_snoc {A : Type} (a : nat) (l : list A) (x : A) :
  (a <= length l)%nat -> skipn a l ++ [x] = skipn a (l ++ [x]).
Proof.
  revert a. induction l as [ | y l IH]; intros a Ha.
  - cbn in Ha. replace a with 0%nat by lia. reflexivity.
  - destruct a as [ | a]; [reflexivity | ].
    cbn [skipn app]. apply IH. cbn in Ha. lia.
Qed.

Lemma skipn_add {A : Type} (a b : nat) (l : list A) :
  skipn a (skipn b l) = skipn (a + b) l.
Proof.
  revert l. induction b as [ | b IH]; intros l.
  - rewrite Nat.add_0_r. reflexivity.
  - rewrite Nat.add_succ_r. destruct l as [ | y l].
    + rewrite !skipn_nil. reflexivity.
    + cbn [skipn]. apply IH.
Qed.

(** Appending to the last [n] items gives the last [n] items of the
    longer list. *)
Lemma deque_append_lastn {A : Type} (n : nat) (x : A) (l : list A) :
  deque_append n x (lastn n l) = lastn n (l ++ [x]).
Proof.
  unfold deque_append. rewrite lastn_length. unfold lastn.
  rewrite skipn_snoc by lia. rewrite skipn_add, length_app. cbn [length].
  f_equal. lia.
Qed.

Lemma update_sample_cases (s : sample) (p : RealTimePlotter) :
  update_sample s p = Ok (p, false) /\ plotting_enabled p = false \/
  plotting_enabled p = true /\
  let p' := append_sample (s_time s) (s_distance s) (s_ttc s) (s_ego_speed s)
              (s_cyclist_speed s) p in
  (update_sample s p = Ok (p', false)
   \/ update_sample s p = Ok (p', true) /\ s_draw s = Ok tt
   \/ update_sample s p = Ok (set_plotting_enabled false p', true)
   \/ exists e, update_sample s p = Raise e).
Proof.
  unfold update_sample, update, _update_plots.
  destruct (plotting_enabled p); cbn [negb]; [right | left; auto].
  split; [reflexivity | ]. cbv zeta.
  destruct (Nat.eqb _ 0); [ | left; reflexivity].
  destruct (s_draw s) as [[] | e]; [right; left; split; reflexivity | ].
  destruct (is_Exception e) eqn:E; cbn; rewrite ?E.
  - right; right; left. reflexivity.
  - right; right; right. eexists. reflexivity.
Qed.

Lemma append_sample_aligned (t d tt e cs : float) (p : RealTimePlotter) :
  aligned p -> aligned (append_sample t d tt e cs p).
Proof.
  unfold aligned, append_sample. cbn.
  rewrite !deque_append_length. intros (H1 & H2 & H3 & H4 & H5).
  rewrite H1, H2, H3, H4. repeat split; lia.
Qed.

Lemma update_all_aligned (ss : list sample) (p p' : RealTimePlotter) :
  aligned p -> update_all ss p = Ok p' ->
  aligned p' /\ max_points p' = max_points p.
Proof.
  revert p. induction ss as [ | s ss IH]; intros p Ha; cbn [update_all].
  - intros H. injection H as <-. split; [exact Ha | reflexivity].
  - pose proof (append_sample_aligned (s_time s) (s_distance s) (s_ttc s)
                  (s_ego_speed s) (s_cyclist_speed s) p Ha) as Ha'.
    destruct (update_sample_cases s p)
      as [[-> _] | [_ [-> | [[-> _] | [-> | [e ->]]]]]];
      try discriminate; intros H; apply IH in H; try assumption;
      destruct H as [H1 H2]; (split; [exact H1 | rewrite H2; reflexivity]).
Qed.

(** X15. The history is bounded and aligned: after any sequence of
    updates of a new plotter of capacity [n], redraws failing or not, the
    five series have the same length, and this length is at most [n]. *)
Theorem plotter_history_bounded (n : nat) (backend figure : result unit)
    (ss : list sample) (p0 p : RealTimePlotter) :
  RealTimePlotter_init n backend figure = Ok p0 ->
  update_all ss p0 = Ok p ->
  aligned p /\ max_points p = n.
Proof.
  intros Hinit Hall.
  assert (aligned p0 /\ max_points p0 = n) as [Ha Hn].
  { revert Hinit. unfold RealTimePlotter_init.
    destruct backend as [u | e]; [ | discriminate].
    destruct figure as [u' | e]; [ | destruct (is_Exception e)];
      intros H; try discriminate; injection H as <-;
      (split; [repeat split; cbn; lia | reflexivity]). }
  destruct (update_all_aligned ss p0 p Ha Hall) as [H1 H2].
  split; [exact H1 | congruence].
Qed.

Lemma plotter_history_bounded_witness :
  exists p0 p,
    RealTimePlotter_init 2 (Ok tt) (Ok tt) = Ok p0 /\
    update_all [sample_at 1 F64.one; sample_at 2 F64.pinf;
                sample_at 3 F64.c3_0] p0 = Ok p /\
    aligned p /\ max_points p = 2%nat.
Proof.
  assert (exists p0, RealTimePlotter_init 2 (Ok tt) (Ok tt) = Ok p0)
    as (p0 & H0) by (eexists; reflexivity).
  assert (exists p, update_all [sample_at 1 F64.one; sample_at 2 F64.pinf;
                                sample_at 3 F64.c3_0] p0 = Ok p)
    as (p & H1).
  { injection H0 as <-. eexists. vm_compute. reflexivity. }
  exists p0, p. split; [exact H0 | ]. split; [exact H1 | ].
  exact (plotter_history_bounded 2 (Ok tt) (Ok tt) _ p0 p H0 H1).
Defined.

Lemma update_sample_draws_ok (s : sample) (p : RealTimePlotter) :
  plotting_enabled p = true -> is_Ok (s_draw s) = true ->
  exists b,
    update_sample s p =
      Ok (append_sample (s_time s) (s_distance s) (s_ttc s) (s_ego_speed s)
            (s_cyclist_speed s) p, b).
Proof.
  intros He Hd. unfold update_sample, update, _update_plots.
  rewrite He. destruct (s_draw s) as [u | e]; [ | discriminate].
  cbn [negb]. destruct (Nat.eqb _ 0); eauto.
Qed.

Lemma update_all_ring (n : nat) (ss pre : list sample) (p : RealTimePlotter) :
  draws_ok ss = true ->
  max_points p = n -> plotting_enabled p = true ->
  times p = lastn n (map s_time pre) ->
  distances p = lastn n (map s_distance pre) ->
  ttc_values p = lastn n (map (fun s => py_min (s_ttc s) (F64.of_Z 10)) pre) ->
  ego_speeds p = lastn n (map s_ego_speed pre) ->
  cyclist_speeds p = lastn n (map s_cyclist_speed pre) ->
  exists p',
    update_all ss p = Ok p' /\ plotting_enabled p' = true /\
    times p' = lastn n (map s_time (pre ++ ss)) /\
    distances p' = lastn n (map s_distance (pre ++ ss)) /\
    ttc_values p' =
      lastn n (map (fun s => py_min (s_ttc s) (F64.of_Z 10)) (pre ++ ss)) /\
    ego_speeds p' = lastn n (map s_ego_speed (pre ++ ss)) /\
    cyclist_speeds p' = lastn n (map s_cyclist_speed (pre ++ ss)).
Proof.
  revert pre p. induction ss as [ | s ss IH]; intros pre p Hd Hn He H1 H2 H3 H4 H5.
  - exists p. rewrite app_nil_r. cbn [update_all]. repeat split; assumption.
  - cbn [draws_ok forallb] in Hd. apply andb_true_iff in Hd as [Hs Hss].
    destruct (update_sample_draws_ok s p He Hs) as [b Hu].
    cbn [update_all]. rewrite Hu.
    replace (pre ++ s :: ss) with ((pre ++ [s]) ++ ss)
      by (rewrite <- app_assoc; reflexivity).
    apply IH; try assumption; unfold append_sample;
      cbn [max_points plotting_enabled times distances ttc_values
           ego_speeds cyclist_speeds];
      try assumption; rewrite Hn, map_app; cbn [map];
      rewrite <- deque_append_lastn; congruence.
Qed.

(** X16. The history is a ring buffer: as long as the redraws succeed, a
    new plotter of capacity [n] that was handed a sequence of samples
    holds, in each of its five series, the last [n] values handed to it,
    oldest first (all of them while there are fewer than [n]); the TTC is
    stored as [min(ttc, 10)]. *)
Theorem plotter_history_ring (n : nat) (ss : list sample) (p0 : RealTimePlotter) :
  RealTimePlotter_init n (Ok tt) (Ok tt) = Ok p0 ->
  draws_ok ss = true ->
  exists p,
    update_all ss p0 = Ok p /\ plotting_enabled p = true /\
    times p = lastn n (map s_time ss) /\
    distances p = lastn n (map s_distance ss) /\
    ttc_values p = lastn n (map (fun s => py_min (s_ttc s) (F64.of_Z 10)) ss) /\
    ego_speeds p = lastn n (map s_ego_speed ss) /\
    cyclist_speeds p = lastn n (map s_cyclist_speed ss).
Proof.
  intros Hinit Hd. cbn in Hinit. injection Hinit as <-.
  apply (update_all_ring n ss [] _ Hd); reflexivity.
Qed.

Lemma plotter_history_ring_witness :
  exists p,
    update_all [sample_at 1 F64.one; sample_at 2 F64.pinf; sample_at 3 F64.c3_0]
      {| max_points := 2; times := []; distances := []; ttc_values := [];
         ego_speeds := []; cyclist_speeds := []; plotting_enabled := true |}
    = Ok p /\
    times p = [F64.of_Z 2; F64.of_Z 3] /\
    ttc_values p = [F64.of_Z 10; F64.c3_0].
Proof.
  destruct (plotter_history_ring 2
              [sample_at 1 F64.one; sample_at 2 F64.pinf; sample_at 3 F64.c3_0]
              _ eq_refl eq_refl)
    as (p & Hu & _ & Ht & _ & Hc & _).
  exists p. split; [exact Hu | ]. split; [exact Ht | exact Hc].
Defined.

(** The TTC series never holds a value above 10. *)
Lemma py_min_clipped (ttc : float) :
  F64.ltb (F64.of_Z 10) (py_min ttc (F64.of_Z 10)) = false.
Proof.
  unfold py_min. destruct (F64.ltb (F64.of_Z 10) ttc) eqn:H;
    [reflexivity | exact H].
Qed.

Lemma Forall_skipn {A : Type} (P : A -> Prop) (a : nat) (l : list A) :
  Forall P l -> Forall P (skipn a l).
Proof.
  revert a. induction l as [ | x l IH]; intros a H.
  - rewrite skipn_nil. constructor.
  - destruct a as [ | a]; [exact H | ]. cbn [skipn]. apply IH.
    inversion H; assumption.
Qed.

Lemma update_all_clipped (ss : list sample) (p p' : RealTimePlotter) :
  Forall (fun v => F64.ltb (F64.of_Z 10) v = false) (ttc_values p) ->
  update_all ss p = Ok p' ->
  Forall (fun v => F64.ltb (F64.of_Z 10) v = false) (ttc_values p').
Proof.
  revert p. induction ss as [ | s ss IH]; intros p Hp; cbn [update_all].
  - intros H. injection H as <-. exact Hp.
  - assert (Forall (fun v => F64.ltb (F64.of_Z 10) v = false)
              (ttc_values (append_sample (s_time s) (s_distance s) (s_ttc s)
                             (s_ego_speed s) (s_cyclist_speed s) p))) as Hp'.
    { unfold append_sample, deque_append. cbn [ttc_values].
      apply Forall_skipn, Forall_app. split; [exact Hp | ].
      constructor; [apply py_min_clipped | constructor]. }
    destruct (update_sample_cases s p)
      as [[-> _] | [_ [-> | [[-> _] | [-> | [e ->]]]]]];
      try discriminate; intros H; apply IH in H; assumption.
Qed.

(** X17. Whatever is handed to the plotter, redraws failing or not, its
    TTC series never holds a value above 10: an infinite or large TTC is
    stored as 10 (a NaN is stored as it is). *)
Theorem plotter_ttc_clipped (n : nat) (backend figure : result unit)
    (ss : list sample) (p0 p : RealTimePlotter) :
  RealTimePlotter_init n backend figure = Ok p0 ->
  update_all ss p0 = Ok p ->
  Forall (fun v => F64.ltb (F64.of_Z 10) v = false) (ttc_values p).
Proof.
  intros Hinit. apply update_all_clipped.
  revert Hinit. unfold RealTimePlotter_init.
  destruct backend as [u | e]; [ | discriminate].
  destruct figure as [u' | e]; [ | destruct (is_Exception e)];
    intros H; try discriminate; injection H as <-; constructor.
Qed.

Lemma plotter_ttc_clipped_witness :
  exists p,
    update_all [sample_at 1 F64.one; sample_at 2 F64.pinf; sample_at 3 F64.c3_0]
      {| max_points := 2; times := []; distances := []; ttc_values := [];
         ego_speeds := []; cyclist_speeds := []; plotting_enabled := true |}
    = Ok p /\
    Forall (fun v => F64.ltb (F64.of_Z 10) v = false) (ttc_values p).
Proof.
  eexists. split; [vm_compute; reflexivity | ].
  apply (plotter_ttc_clipped 2 (Ok tt) (Ok tt)
           [sample_at 1 F64.one; sample_at 2 F64.pinf; sample_at 3 F64.c3_0]
           {| max_points := 2; times := []; distances := []; ttc_values := [];
              ego_speeds := []; cyclist_speeds := [];
              plotting_enabled := true |});
    vm_compute; reflexivity.
Defined.

Lemma update_sample_disabled (s : sample) (p : RealTimePlotter) :
  plotting_enabled p = false -> update_sample s p = Ok (p, false).
Proof. intros Hp. unfold update_sample, update. rewrite Hp. reflexivity. Qed.

Lemma update_all_disabled (ss : list sample) (p : RealTimePlotter) :
  plotting_enabled p = false -> update_all ss p = Ok p.
Proof.
  intros Hp. induction ss as [ | s ss IH]; [reflexivity | ].
  cbn [update_all]. rewrite (update_sample_disabled s p Hp). exact IH.
Qed.

Lemma update_trace_disabled (ss : list sample) (p : RealTimePlotter) :
  plotting_enabled p = false ->
  update_trace ss p = Ok (repeat false (length ss)).
Proof.
  intros Hp. induction ss as [ | s ss IH]; [reflexivity | ].
  cbn [update_trace length repeat].
  rewrite (update_sample_disabled s p Hp), IH. reflexivity.
Qed.

(** X18. A plotter is switched off for good.  When the figure cannot be
    built the new plotter is disabled, with its five series empty.  When
    a redraw raises an exception the update ends with the plotter
    disabled, the sample that asked for the redraw recorded.  And every
    update of a disabled plotter leaves it exactly as it was and redraws
    nothing, so that over any further samples nothing is recorded, no
    redraw is made and nothing is raised. *)
Theorem plotter_disabled_for_good :
  (forall n e p0,
      RealTimePlotter_init n (Ok tt) (Raise e) = Ok p0 ->
      p0 = {| max_points := n; times := []; distances := [];
              ttc_values := []; ego_speeds := []; cyclist_speeds := [];
              plotting_enabled := false |}) /\
  (forall s p e,
      plotting_enabled p = true ->
      Nat.modulo (Nat.min (length (times p) + 1) (max_points p)) 5 = 0%nat ->
      s_draw s = Raise e -> is_Exception e = true ->
      let n := max_points p in
      update_sample s p =
        Ok ({| max_points := n;
               times := deque_append n (s_time s) (times p);
               distances := deque_append n (s_distance s) (distances p);
               ttc_values :=
                 deque_append n (py_min (s_ttc s) (F64.of_Z 10)) (ttc_values p);
               ego_speeds := deque_append n (s_ego_speed s) (ego_speeds p);
               cyclist_speeds :=
                 deque_append n (s_cyclist_speed s) (cyclist_speeds p);
               plotting_enabled := false |}, true)) /\
  (forall p ss,
      plotting_enabled p = false ->
      (forall s, update_sample s p = Ok (p, false)) /\
      update_all ss p = Ok p /\
      update_trace ss p = Ok (repeat false (length ss))).
Proof.
  split; [ | split].
  - intros n e p0. unfold RealTimePlotter_init.
    destruct (is_Exception e); [ | discriminate].
    intros H. injection H as <-. reflexivity.
  - intros s p e He Hm Hd Hx n.
    unfold update_sample, update, _update_plots. rewrite He. cbn [negb].
    unfold append_sample at 1. cbn [times].
    rewrite deque_append_length, Hm. cbn [Nat.eqb].
    rewrite Hd, Hx. reflexivity.
  - intros p ss Hp. split; [ | split].
    + intros s. apply update_sample_disabled, Hp.
    + apply update_all_disabled, Hp.
    + apply update_trace_disabled, Hp.
Qed.

Lemma plotter_disabled_for_good_witness :
  (RealTimePlotter_init 200 (Ok tt) (Raise OSError) = Ok (blank_plotter 200) /\
   update_trace [sample_at 1 F64.one; sample_at 2 F64.one] (blank_plotter 200)
   = Ok [false; false] /\
   update_all [sample_at 1 F64.one; sample_at 2 F64.one] (blank_plotter 200)
   = Ok (blank_plotter 200)) /\
  (update_sample failing_draw four_samples = Ok (five_samples_off, true) /\
   update_trace [sample_at 1 F64.one; sample_at 2 F64.one] five_samples_off
   = Ok [false; false] /\
   update_all [sample_at 1 F64.one; sample_at 2 F64.one] five_samples_off
   = Ok five_samples_off).
Proof.
  destruct plotter_disabled_for_good as (Hinit & Hdraw & Hoff).
  split.
  - split.
    + rewrite (Hinit 200%nat OSError (blank_plotter 200) eq_refl).
      reflexivity.
    + destruct (Hoff (blank_plotter 200)
                  [sample_at 1 F64.one; sample_at 2 F64.one] eq_refl)
        as (_ & Ha & Ht).
      split; [exact Ht | exact Ha].
  - split.
    + rewrite (Hdraw failing_draw four_samples OSError
                 eq_refl eq_refl eq_refl eq_refl).
      vm_compute. reflexivity.
    + destruct (Hoff five_samples_off
                  [sample_at 1 F64.one; sample_at 2 F64.one] eq_refl)
        as (_ & Ha & Ht).
      split; [exact Ht | exact Ha].
Defined.

(** X19. The plot is redrawn when the length of the history after the
    append is a multiple of 5.  While the history fills this is every
    fifth update; once it is full, with a capacity that is a multiple of 5
    such as the default 200, it is every update. *)
Theorem plotter_redraw_cadence (s : sample) (p p' : RealTimePlotter) (b : bool) :
  plotting_enabled p = true ->
  update_sample s p = Ok (p', b) ->
  b = Nat.eqb (Nat.modulo (Nat.min (length (times p) + 1) (max_points p)) 5) 0
  /\ (length (times p) = max_points p ->
      Nat.modulo (max_points p) 5 = 0%nat -> b = true).
Proof.
  intros He Hu.
  assert (b = Nat.eqb (Nat.modulo
                         (Nat.min (length (times p) + 1) (max_points p)) 5) 0)
    as Hb.
  { revert Hu. unfold update_sample, update, _update_plots. rewrite He.
    cbn [negb]. unfold append_sample at 1. cbn [times].
    rewrite deque_append_length.
    destruct (Nat.eqb _ 0).
    - destruct (s_draw s) as [u | e].
      + intros H. injection H as _ <-. reflexivity.
      + destruct (is_Exception e) eqn:E; cbn; rewrite ?E;
          intros H; try discriminate; injection H as _ <-; reflexivity.
    - intros H. injection H as _ <-. reflexivity. }
  split; [exact Hb | ].
  intros Hfull Hmod. rewrite Hb.
  replace (Nat.min (length (times p) + 1) (max_points p)) with (max_points p)
    by lia.
  rewrite Hmod. reflexivity.
Qed.

Lemma plotter_redraw_cadence_witness :
  exists p', update_sample (sample_at 3 F64.one) full_plotter = Ok (p', true).
Proof.
  assert (exists p' b,
             update_sample (sample_at 3 F64.one) full_plotter = Ok (p', b))
    as (p' & b & H) by (do 2 eexists; vm_compute; reflexivity).
  exists p'.
  rewrite <- (proj2 (plotter_redraw_cadence (sample_at 3 F64.one) full_plotter
                       p' b eq_refl H) eq_refl eq_refl).
  exact H.
Defined.

(** ** From the measurements to the plotted TTC *)

Lemma binary_round_not_nan (s : bool) (m : positive) (e : Z) :
  binary_round F64.prec F64.emax s m e <> S754_nan.
Proof.
  unfold binary_round. destruct (shl_align m e _) as [mz ez].
  pose proof (binary_round_aux_sign s (Z.pos mz) ez loc_Exact ltac:(lia)) as H.
  destruct (binary_round_aux _ _ _ _ _ _); [discriminate .. | contradiction | discriminate].
Qed.

(** The difference of two finite floats is not a NaN. *)
Lemma sub_finite_not_nan (x y : float) :
  F64.is_finite x = true -> F64.is_finite y = true ->
  F64.sub x y <> S754_nan.
Proof.
  destruct x as [sx | sx | | sx mx ex]; try discriminate;
    destruct y as [sy | sy | | sy my ey]; try discriminate; intros _ _;
    try (destruct sx, sy; discriminate); try discriminate.
  unfold F64.sub, SFsub, binary_normalize.
  destruct (_ - _) as [ | m | m]; [discriminate | | ];
    apply binary_round_not_nan.
Qed.

Lemma leb_ten_of_not_above (v : float) :
  F64.leb F64.zero v = true -> F64.ltb (F64.of_Z 10) v = false ->
  F64.leb v (F64.of_Z 10) = true.
Proof.
  destruct v as [s | [ | ] | | [ | ] m e]; try discriminate; try reflexivity.
  unfold F64.ltb, F64.leb, SFltb, SFleb. intros _.
  change (F64.of_Z 10) with (S754_finite false 5629499534213120 (-49)).
  unfold SFcompare. rewrite (Z.compare_antisym e (-49)).
  destruct (e ?= -49) eqn:He; cbn [CompOpp]; try discriminate; try reflexivity.
  rewrite !Pos.compare_cont_spec.
  rewrite (Pos.compare_antisym m 5629499534213120).
  destruct (m ?= 5629499534213120)%positive; cbn [CompOpp Pos.switch_Eq];
    try discriminate; reflexivity.
Qed.

(** X20. On a pass with finite measurements and a distance that is not
    negative, the TTC value that the loop hands to the plotter is stored
    as a number between 0 and 10: never a NaN, never negative, never
    above the top of the plot. *)
Theorem plotted_ttc_in_range (draw : result unit) (w : world_obs)
    (st st' : loop_state) (out : tick_output) :
  tick w st = Continue st' out ->
  F64.is_finite (distance w) = true ->
  F64.leb F64.zero (distance w) = true ->
  F64.is_finite (ego_speed w) = true ->
  F64.is_finite (cyclist_speed w) = true ->
  let v := py_min (s_ttc (sample_of_pass draw w st' out)) (F64.of_Z 10) in
  F64.leb F64.zero v = true /\ F64.leb v (F64.of_Z 10) = true.
Proof.
  intros Ht Hf Hd He Hc.
  destruct (tick_inv _ _ _ _ Ht) as (_ & _ & d & c' & _ & _ & ->).
  cbn [sample_of_pass s_ttc ttc].
  pose proof (calculate_ttc_sign (distance w)
                (F64.sub (ego_speed w) (cyclist_speed w)) Hf Hd
                (sub_finite_not_nan _ _ He Hc)) as Hpos.
  set (t := calculate_ttc _ _) in *. cbv zeta. unfold py_min.
  destruct (F64.ltb (F64.of_Z 10) t) eqn:Hlt.
  - split; reflexivity.
  - split; [exact Hpos | apply leb_ten_of_not_above; assumption].
Qed.

Lemma plotted_ttc_in_range_witness :
  exists st' out,
    tick far_apart cruising = Continue st' out /\
    F64.leb F64.zero
      (py_min (s_ttc (sample_of_pass (Ok tt) far_apart st' out)) (F64.of_Z 10))
    = true /\
    F64.leb
      (py_min (s_ttc (sample_of_pass (Ok tt) far_apart st' out)) (F64.of_Z 10))
      (F64.of_Z 10)
    = true.
Proof.
  assert (exists st' out, tick far_apart cruising = Continue st' out)
    as (st' & out & Ht) by (do 2 eexists; vm_compute; reflexivity).
  exists st', out. split; [exact Ht | ].
  apply (plotted_ttc_in_range (Ok tt) far_apart cruising st' out Ht);
    reflexivity.
Defined.
